(** * pion/dtls v2, crypto.go: handshake authentication primitives

    A shallow embedding of [vendor/github.com/pion/dtls/v2/crypto.go]:
    the key-exchange message canonicalizer, the key-exchange and
    certificate-verify signers and verifiers, the certificate-chain
    loaders and validators, and the AEAD additional-data builder.

    Conventions.
    - A Go [byte], [uint16], [uint64] or [int] is a [Z]; every conversion
      that truncates in Go is written out ([uint8], [uint16]).
    - A [[]byte] is a [list Z]; a write [b[i] = v] is stdpp's list insert
      guarded by the bounds check that makes Go panic.
    - The packages [crypto/...], [encoding/asn1] and [crypto/x509] are not
      part of the file; they enter through the interface [Primitives].
    - Library calls are recorded in a trace, so that statements such as
      "the digest is computed first" or "no verification is attempted"
      are statements about the model. *)

From Stdlib Require Import ZArith Lia List String.
From stdpp Require Import base option list.

Local Open Scope Z_scope.

(** ** Bytes and fixed-width integers *)

Abbreviation bytes := (list Z).

(** Go's conversion [byte(x)]. *)
Definition uint8 (x : Z) : Z := x mod 2 ^ 8.

(** Go's conversion [uint16(x)]. *)
Definition uint16 (x : Z) : Z := x mod 2 ^ 16.

Definition is_byte (b : Z) : Prop := 0 <= b < 2 ^ 8.

(** [make([]byte, n)] and [var a [n]byte]: [n] zero bytes. *)
Definition make (n : nat) : bytes := replicate n 0.

(** [b[i] = v].  Go panics when [i] is out of range: [None]. *)
Definition store (b : bytes) (i : nat) (v : Z) : option bytes :=
  if decide (i < length b)%nat then Some (<[i := v]> b) else None.

(** [binary.BigEndian.PutUint16(b[off:], v)]:
    [_ = b[1]; b[0] = byte(v >> 8); b[1] = byte(v)]. *)
Definition PutUint16 (b : bytes) (off : nat) (v : Z) : option bytes :=
  _ ← b !! (off + 1)%nat;
  b ← store b off (uint8 (Z.shiftr v 8));
  store b (off + 1) (uint8 v).

(** [binary.BigEndian.PutUint64(b[off:], v)]:
    [_ = b[7]; b[0] = byte(v >> 56); ...; b[7] = byte(v)]. *)
Definition PutUint64 (b : bytes) (off : nat) (v : Z) : option bytes :=
  _ ← b !! (off + 7)%nat;
  b ← store b off (uint8 (Z.shiftr v 56));
  b ← store b (off + 1) (uint8 (Z.shiftr v 48));
  b ← store b (off + 2) (uint8 (Z.shiftr v 40));
  b ← store b (off + 3) (uint8 (Z.shiftr v 32));
  b ← store b (off + 4) (uint8 (Z.shiftr v 24));
  b ← store b (off + 5) (uint8 (Z.shiftr v 16));
  b ← store b (off + 6) (uint8 (Z.shiftr v 8));
  store b (off + 7) (uint8 v).

(** The number a byte string denotes when read big-endian; the reading
    used to state the layouts below. *)
Definition be_value (b : bytes) : Z :=
  fold_left (fun acc x => acc * 2 ^ 8 + x) b 0.

(** ** The key-exchange message (crypto.go, lines 21-34) *)

(** [namedCurve] is a [uint16] identifier declared elsewhere in the
    package; [len(publicKey)] is an [int]. *)
Definition valueKeyMessage (clientRandom serverRandom publicKey : bytes)
    (namedCurve : Z) : option bytes :=
  let serverECDHParams := make 4 in
  serverECDHParams ← store serverECDHParams 0 3;
  serverECDHParams ← PutUint16 serverECDHParams 1 (uint16 namedCurve);
  serverECDHParams ← store serverECDHParams 3
                       (uint8 (Z.of_nat (length publicKey)));
  let plaintext : bytes := [] in
  let plaintext := plaintext ++ clientRandom in
  let plaintext := plaintext ++ serverRandom in
  let plaintext := plaintext ++ serverECDHParams in
  let plaintext := plaintext ++ publicKey in
  Some plaintext.

(** The four bytes of [serverECDHParams]. *)
Definition curveParams (namedCurve : Z) (publicKey : bytes) : bytes :=
  [3; uint8 (Z.shiftr (uint16 namedCurve) 8); uint8 (uint16 namedCurve);
   uint8 (Z.of_nat (length publicKey))].

(** ** The AEAD additional data (crypto.go, lines 216-228) *)

(** Modelled from the spec: the struct [recordLayerHeader] is declared in
    another file of the package.  The fields read by
    [generateAEADAdditionalData]: a 16-bit epoch, a sequence number carried
    in a 64-bit field, an 8-bit content type and the two version bytes. *)
Record protocolVersion := { major : Z; minor : Z }.

Record recordLayerHeader := {
  contentType : Z;
  protocolVersion_ : protocolVersion;
  epoch : Z;
  sequenceNumber : Z
}.

(** The ranges of the Go field types. *)
Record header_wf (h : recordLayerHeader) : Prop := {
  wf_contentType : 0 <= contentType h < 2 ^ 8;
  wf_major : 0 <= major (protocolVersion_ h) < 2 ^ 8;
  wf_minor : 0 <= minor (protocolVersion_ h) < 2 ^ 8;
  wf_epoch : 0 <= epoch h < 2 ^ 16;
  wf_sequenceNumber : 0 <= sequenceNumber h < 2 ^ 64
}.

Definition generateAEADAdditionalData (h : recordLayerHeader)
    (payloadLen : Z) : option bytes :=
  let additionalData := make 13 in
  additionalData ← PutUint64 additionalData 0 (sequenceNumber h);
  additionalData ← PutUint16 additionalData 0 (epoch h);
  additionalData ← store additionalData 8 (uint8 (contentType h));
  additionalData ← store additionalData 9 (major (protocolVersion_ h));
  additionalData ← store additionalData 10 (minor (protocolVersion_ h));
  additionalData ← PutUint16 additionalData (length additionalData - 2)
                     (uint16 payloadLen);
  Some additionalData.

(** ** The libraries behind the signers and verifiers *)

(** The opaque values the file handles: key handles, the negotiated
    [hashAlgorithm] (declared elsewhere in the package), parsed
    certificates, certificate pools, clock readings, the state of
    [rand.Reader], and the errors the libraries return. *)
Class Handles := {
  ed25519_PrivateKey : Type;
  ecdsa_PrivateKey : Type;
  rsa_PrivateKey : Type;
  ed25519_PublicKey : Type;
  ecdsa_PublicKey : Type;
  rsa_PublicKey : Type;
  hashAlgorithm : Type;
  Certificate : Type;
  CertPool : Type;
  time_Time : Type;
  Rand : Type;
  libError : Type
}.

(** [x509.SignatureAlgorithm]. *)
Inductive x509_SignatureAlgorithm :=
| UnknownSignatureAlgorithm
| MD2WithRSA
| MD5WithRSA
| SHA1WithRSA
| SHA256WithRSA
| SHA384WithRSA
| SHA512WithRSA
| DSAWithSHA1
| DSAWithSHA256
| ECDSAWithSHA1
| ECDSAWithSHA256
| ECDSAWithSHA384
| ECDSAWithSHA512
| SHA256WithRSAPSS
| SHA384WithRSAPSS
| SHA512WithRSAPSS
| PureEd25519.

(** The signature algorithms of the leaf certificate under which an RSA
    key is accepted: PKCS#1 v1.5 with SHA-1, SHA-256, SHA-384 or SHA-512. *)
Definition pkcs1v15_sha (alg : x509_SignatureAlgorithm) : Prop :=
  alg = SHA1WithRSA \/ alg = SHA256WithRSA
  \/ alg = SHA384WithRSA \/ alg = SHA512WithRSA.

(** [x509.ExtKeyUsage]. *)
Inductive x509_ExtKeyUsage :=
| ExtKeyUsageAny
| ExtKeyUsageServerAuth
| ExtKeyUsageClientAuth
| ExtKeyUsageCodeSigning
| ExtKeyUsageEmailProtection
| ExtKeyUsageIPSECEndSystem
| ExtKeyUsageIPSECTunnel
| ExtKeyUsageIPSECUser
| ExtKeyUsageTimeStamping
| ExtKeyUsageOCSPSigning
| ExtKeyUsageMicrosoftServerGatedCrypto
| ExtKeyUsageNetscapeServerGatedCrypto
| ExtKeyUsageMicrosoftCommercialCodeSigning
| ExtKeyUsageMicrosoftKernelCodeSigning.

#[global] Instance x509_ExtKeyUsage_eq_dec : EqDecision x509_ExtKeyUsage.
Proof. solve_decision. Defined.

(** The decoded elliptic-curve DSA signature (crypto.go, lines 17-19). *)
Record ecdsaSignature := { sig_R : Z; sig_S : Z }.

(** The method [Sign] of [big.Int]: -1, 0 or +1. *)
Definition big_Sign (x : Z) : Z := Z.sgn x.

Section Model.
Context `{Handles}.

(** [crypto.PrivateKey] is the empty interface; the type switches of the
    file tell three dynamic types from all the others. *)
Inductive crypto_PrivateKey :=
| PrivEd25519 (p : ed25519_PrivateKey)
| PrivECDSA (p : ecdsa_PrivateKey)
| PrivRSA (p : rsa_PrivateKey)
| PrivOther.

(** The dynamic type of [certificate.PublicKey]. *)
Inductive crypto_PublicKey :=
| PubEd25519 (p : ed25519_PublicKey)
| PubECDSA (p : ecdsa_PublicKey)
| PubRSA (p : rsa_PublicKey)
| PubOther.

(** The fields of [x509.VerifyOptions] the validators set; a field left
    out of the struct literal has Go's zero value (the empty string, the
    nil slice). *)
Record x509_VerifyOptions := {
  DNSName : string;
  Intermediates : CertPool;
  Roots : CertPool;
  CurrentTime : time_Time;
  KeyUsages : list x509_ExtKeyUsage
}.

(** The package's error values (declared in another file of the package),
    and the errors handed through from a library. *)
Inductive error :=
| errLengthMismatch
| errKeySignatureMismatch
| errInvalidECDSASignature
| errKeySignatureGenerateUnimplemented
| errKeySignatureVerifyUnimplemented
| errInvalidSignatureAlgorithm
| errLibrary (e : libError).

(** The operations of the libraries, as the file calls them. *)
Class Primitives := {
  (** [hashAlgorithm.digest] and [hashAlgorithm.cryptoHash]. *)
  hashAlgorithm_digest : hashAlgorithm -> bytes -> bytes;
  hashAlgorithm_cryptoHash : hashAlgorithm -> Z;
  (** [sha256.New], [Write], [Sum(nil)]: the 32-byte SHA-256 digest. *)
  sha256_Sum : bytes -> bytes;
  sha256_Size : forall b, length (sha256_Sum b) = 32%nat;
  (** [p.Sign(rand.Reader, msg, opts)] for the three key families. *)
  ed25519_Sign : ed25519_PrivateKey -> Rand -> bytes -> Z -> libError + bytes;
  ecdsa_Sign : ecdsa_PrivateKey -> Rand -> bytes -> Z -> libError + bytes;
  rsa_Sign : rsa_PrivateKey -> Rand -> bytes -> Z -> libError + bytes;
  ed25519_Verify : ed25519_PublicKey -> bytes -> bytes -> bool;
  ecdsa_Verify : ecdsa_PublicKey -> bytes -> Z -> Z -> bool;
  (** [rsa.VerifyPKCS1v15(pub, hash, hashed, sig)]; [None] is [nil]. *)
  rsa_VerifyPKCS1v15 : rsa_PublicKey -> Z -> bytes -> bytes -> option libError;
  (** [asn1.Unmarshal(sig, &ecdsaSignature{})]: the rest and the pair. *)
  asn1_Unmarshal : bytes -> libError + (bytes * ecdsaSignature);
  x509_ParseCertificate : bytes -> libError + Certificate;
  Certificate_PublicKey : Certificate -> crypto_PublicKey;
  Certificate_SignatureAlgorithm : Certificate -> x509_SignatureAlgorithm;
  x509_NewCertPool : CertPool;
  CertPool_AddCert : CertPool -> Certificate -> CertPool;
  Certificate_Verify :
    Certificate -> x509_VerifyOptions -> libError + list (list Certificate)
}.

(** *** Traces of library calls *)

Inductive Call :=
| CallParseCertificate (raw : bytes)
| CallUnmarshal (sig : bytes)
| CallSHA256 (data : bytes)
| CallDigest (h : hashAlgorithm) (data : bytes)
| CallSign (key : crypto_PrivateKey) (msg : bytes) (opts : Z)
| CallEd25519Verify (p : ed25519_PublicKey) (msg sig : bytes)
| CallECDSAVerify (p : ecdsa_PublicKey) (hashed : bytes) (r s : Z)
| CallRSAVerifyPKCS1v15 (p : rsa_PublicKey) (hash : Z) (hashed sig : bytes)
| CallNow
| CallCertificateVerify (leaf : Certificate) (opts : x509_VerifyOptions).

(** How a call of the file ends: a value, an error, or a run-time panic. *)
Inductive outcome (A : Type) :=
| Ret (a : A)
| Fail (e : error)
| Panic.
Arguments Ret {A} a.
Arguments Fail {A} e.
Arguments Panic {A}.

(** A computation: the library calls made, in order, and the outcome. *)
Definition M (A : Type) : Type := list Call * outcome A.

Definition ret {A} (a : A) : M A := ([], Ret a).
Definition fail {A} (e : error) : M A := ([], Fail e).
Definition panic {A} : M A := ([], Panic).

Definition bind {A B} (m : M A) (k : A -> M B) : M B :=
  match m with
  | (t, Ret a) => let '(t', o) := k a in (t ++ t', o)
  | (t, Fail e) => (t, Fail e)
  | (t, Panic) => (t, Panic)
  end.

Definition trace {A} (m : M A) : list Call := fst m.
Definition result {A} (m : M A) : outcome A := snd m.

(** One library call: log it, return what the library returns. *)
Definition call {A} (c : Call) (o : outcome A) : M A := ([c], o).

Definition of_lib {A} (r : libError + A) : outcome A :=
  match r with
  | inl e => Fail (errLibrary e)
  | inr a => Ret a
  end.

(** An index or slice expression that panics out of range. *)
Definition of_option {A} (o : option A) : M A :=
  match o with
  | Some a => ret a
  | None => panic
  end.

(** [l[n:]]. *)
Definition slice_from {A} (l : list A) (n : nat) : option (list A) :=
  if decide (n <= length l)%nat then Some (drop n l) else None.

End Model.

Arguments Ret {_ _} a.
Arguments Fail {_ _} e.
Arguments Panic {_ _}.

(** The monad structure, so that the functions below read in the same
    bind notation as the byte-level code above. *)
#[global] Instance M_ret `{Handles} : MRet M := fun A a => ret a.
#[global] Instance M_bind `{Handles} : MBind M := fun A B k m => bind m k.

Section Functions.
Context `{Primitives}.

Definition x509ParseCertificate (raw : bytes) : M Certificate :=
  call (CallParseCertificate raw) (of_lib (x509_ParseCertificate raw)).

Definition asn1Unmarshal (sig : bytes) : M ecdsaSignature :=
  call (CallUnmarshal sig)
    (match asn1_Unmarshal sig with
     | inl e => Fail (errLibrary e)
     | inr (_, s) => Ret s
     end).

Definition sha256Sum (data : bytes) : M bytes :=
  call (CallSHA256 data) (Ret (sha256_Sum data)).

Definition digest (h : hashAlgorithm) (data : bytes) : M bytes :=
  call (CallDigest h data) (Ret (hashAlgorithm_digest h data)).

(** [crypto.Hash(0)]. *)
Definition crypto_Hash_0 : Z := 0.

Definition ed25519Sign (p : ed25519_PrivateKey) (rnd : Rand) (msg : bytes)
    (opts : Z) : M bytes :=
  call (CallSign (PrivEd25519 p) msg opts) (of_lib (ed25519_Sign p rnd msg opts)).

Definition ecdsaSign (p : ecdsa_PrivateKey) (rnd : Rand) (msg : bytes)
    (opts : Z) : M bytes :=
  call (CallSign (PrivECDSA p) msg opts) (of_lib (ecdsa_Sign p rnd msg opts)).

Definition rsaSign (p : rsa_PrivateKey) (rnd : Rand) (msg : bytes)
    (opts : Z) : M bytes :=
  call (CallSign (PrivRSA p) msg opts) (of_lib (rsa_Sign p rnd msg opts)).

Definition ed25519Verify (p : ed25519_PublicKey) (msg sig : bytes) : M bool :=
  call (CallEd25519Verify p msg sig) (Ret (ed25519_Verify p msg sig)).

Definition ecdsaVerify (p : ecdsa_PublicKey) (hashed : bytes) (r s : Z) : M bool :=
  call (CallECDSAVerify p hashed r s) (Ret (ecdsa_Verify p hashed r s)).

Definition rsaVerifyPKCS1v15 (p : rsa_PublicKey) (hash : Z)
    (hashed sig : bytes) : M unit :=
  call (CallRSAVerifyPKCS1v15 p hash hashed sig)
    (match rsa_VerifyPKCS1v15 p hash hashed sig with
     | Some e => Fail (errLibrary e)
     | None => Ret tt
     end).

(** [time.Now()]; [clock] is what the wall clock shows during the call. *)
Definition timeNow (clock : time_Time) : M time_Time := call CallNow (Ret clock).

Definition certificateVerify (leaf : Certificate) (opts : x509_VerifyOptions)
    : M (list (list Certificate)) :=
  call (CallCertificateVerify leaf opts) (of_lib (Certificate_Verify leaf opts)).

(** ** The key-exchange signer and verifier (crypto.go, lines 41-95) *)

(** [rnd] is the state of the global [rand.Reader]. *)
Definition generateKeySignature (clientRandom serverRandom publicKey : bytes)
    (namedCurve : Z) (privateKey : crypto_PrivateKey)
    (hashAlgorithm : hashAlgorithm) (rnd : Rand) : M bytes :=
  msg ← of_option (valueKeyMessage clientRandom serverRandom publicKey namedCurve);
  match privateKey with
  | PrivEd25519 p =>
      ed25519Sign p rnd msg crypto_Hash_0
  | PrivECDSA p =>
      hashed ← digest hashAlgorithm msg;
      ecdsaSign p rnd hashed (hashAlgorithm_cryptoHash hashAlgorithm)
  | PrivRSA p =>
      hashed ← digest hashAlgorithm msg;
      rsaSign p rnd hashed (hashAlgorithm_cryptoHash hashAlgorithm)
  | PrivOther =>
      fail errKeySignatureGenerateUnimplemented
  end.

Definition verifyKeySignature (message remoteKeySignature : bytes)
    (hashAlgorithm : hashAlgorithm) (rawCertificates : list bytes) : M unit :=
  if decide (length rawCertificates = 0%nat) then fail errLengthMismatch else
  raw0 ← of_option (rawCertificates !! 0%nat);
  certificate ← x509ParseCertificate raw0;
  match Certificate_PublicKey certificate with
  | PubEd25519 p =>
      ok ← ed25519Verify p message remoteKeySignature;
      if negb ok then fail errKeySignatureMismatch else
      ret tt
  | PubECDSA p =>
      ecdsaSig ← asn1Unmarshal remoteKeySignature;
      if (big_Sign (sig_R ecdsaSig) <=? 0) || (big_Sign (sig_S ecdsaSig) <=? 0)
      then fail errInvalidECDSASignature else
      hashed ← digest hashAlgorithm message;
      ok ← ecdsaVerify p hashed (sig_R ecdsaSig) (sig_S ecdsaSig);
      if negb ok then fail errKeySignatureMismatch else
      ret tt
  | PubRSA p =>
      match Certificate_SignatureAlgorithm certificate with
      | SHA1WithRSA | SHA256WithRSA | SHA384WithRSA | SHA512WithRSA =>
          hashed ← digest hashAlgorithm message;
          rsaVerifyPKCS1v15 p (hashAlgorithm_cryptoHash hashAlgorithm) hashed
            remoteKeySignature
      | _ => fail errKeySignatureVerifyUnimplemented
      end
  | PubOther => fail errKeySignatureVerifyUnimplemented
  end.

(** ** The certificate-verify signer and verifier (crypto.go, lines 105-162) *)

(** [h.Write] of a [hash.Hash] never returns an error (package [hash]), so
    the early return of line 108 is not taken. *)
Definition generateCertificateVerify (handshakeBodies : bytes)
    (privateKey : crypto_PrivateKey) (hashAlgorithm : hashAlgorithm)
    (rnd : Rand) : M bytes :=
  hashed ← sha256Sum handshakeBodies;
  match privateKey with
  | PrivEd25519 p =>
      ed25519Sign p rnd hashed crypto_Hash_0
  | PrivECDSA p =>
      ecdsaSign p rnd hashed (hashAlgorithm_cryptoHash hashAlgorithm)
  | PrivRSA p =>
      rsaSign p rnd hashed (hashAlgorithm_cryptoHash hashAlgorithm)
  | PrivOther =>
      fail errInvalidSignatureAlgorithm
  end.

Definition verifyCertificateVerify (handshakeBodies : bytes)
    (hashAlgorithm : hashAlgorithm) (remoteKeySignature : bytes)
    (rawCertificates : list bytes) : M unit :=
  if decide (length rawCertificates = 0%nat) then fail errLengthMismatch else
  raw0 ← of_option (rawCertificates !! 0%nat);
  certificate ← x509ParseCertificate raw0;
  match Certificate_PublicKey certificate with
  | PubEd25519 p =>
      ok ← ed25519Verify p handshakeBodies remoteKeySignature;
      if negb ok then fail errKeySignatureMismatch else
      ret tt
  | PubECDSA p =>
      ecdsaSig ← asn1Unmarshal remoteKeySignature;
      if (big_Sign (sig_R ecdsaSig) <=? 0) || (big_Sign (sig_S ecdsaSig) <=? 0)
      then fail errInvalidECDSASignature else
      hash ← digest hashAlgorithm handshakeBodies;
      ok ← ecdsaVerify p hash (sig_R ecdsaSig) (sig_S ecdsaSig);
      if negb ok then fail errKeySignatureMismatch else
      ret tt
  | PubRSA p =>
      match Certificate_SignatureAlgorithm certificate with
      | SHA1WithRSA | SHA256WithRSA | SHA384WithRSA | SHA512WithRSA =>
          hash ← digest hashAlgorithm handshakeBodies;
          rsaVerifyPKCS1v15 p (hashAlgorithm_cryptoHash hashAlgorithm) hash
            remoteKeySignature
      | _ => fail errKeySignatureVerifyUnimplemented
      end
  | PubOther => fail errKeySignatureVerifyUnimplemented
  end.

(** ** Loading and validating a chain (crypto.go, lines 164-214) *)

(** The [for ... range] loop of [loadCerts]: [certs] is the slice built
    so far, [rest] the raw certificates still to visit. *)
Fixpoint loadCerts_loop (rest : list bytes) (certs : list Certificate)
    : M (list Certificate) :=
  match rest with
  | [] => ret certs
  | rawCert :: rest' =>
      cert ← x509ParseCertificate rawCert;
      loadCerts_loop rest' (certs ++ [cert])
  end.

Definition loadCerts (rawCertificates : list bytes) : M (list Certificate) :=
  if decide (length rawCertificates = 0%nat) then fail errLengthMismatch else
  loadCerts_loop rawCertificates [].

(** The loop [for _, cert := range certs { pool.AddCert(cert) }]. *)
Definition addCerts (pool : CertPool) (certs : list Certificate) : CertPool :=
  fold_left CertPool_AddCert certs pool.

Definition verifyClientCert (rawCertificates : list bytes) (roots : CertPool)
    (clock : time_Time) : M (list (list Certificate)) :=
  certificate ← loadCerts rawCertificates;
  let intermediateCAPool := x509_NewCertPool in
  intermediates ← of_option (slice_from certificate 1);
  let intermediateCAPool := addCerts intermediateCAPool intermediates in
  now ← timeNow clock;
  let opts := {| Roots := roots;
                 CurrentTime := now;
                 DNSName := EmptyString;
                 Intermediates := intermediateCAPool;
                 KeyUsages := [ExtKeyUsageClientAuth] |} in
  leaf ← of_option (certificate !! 0%nat);
  certificateVerify leaf opts.

Definition verifyServerCert (rawCertificates : list bytes) (roots : CertPool)
    (serverName : string) (clock : time_Time) : M (list (list Certificate)) :=
  certificate ← loadCerts rawCertificates;
  let intermediateCAPool := x509_NewCertPool in
  intermediates ← of_option (slice_from certificate 1);
  let intermediateCAPool := addCerts intermediateCAPool intermediates in
  now ← timeNow clock;
  let opts := {| Roots := roots;
                 CurrentTime := now;
                 DNSName := serverName;
                 Intermediates := intermediateCAPool;
                 KeyUsages := [] |} in
  leaf ← of_option (certificate !! 0%nat);
  certificateVerify leaf opts.

(** [raws] parse, one by one, to [certs]. *)
Definition parsed_as (raws : list bytes) (certs : list Certificate) : Prop :=
  Forall2 (fun raw cert => x509_ParseCertificate raw = inr cert) raws certs.

(** The verifiers after the leaf certificate is parsed, in closed form:
    the calls made and the outcome.  [verifyKeySignature_parsed] below
    proves that the verifiers compute it. *)
Definition verify_with (cert : Certificate) (message sig : bytes)
    (h : hashAlgorithm) : M unit :=
  match Certificate_PublicKey cert with
  | PubEd25519 p =>
      ([CallEd25519Verify p message sig],
       if ed25519_Verify p message sig then Ret tt
       else Fail errKeySignatureMismatch)
  | PubECDSA p =>
      match asn1_Unmarshal sig with
      | inl e => ([CallUnmarshal sig], Fail (errLibrary e))
      | inr (_, rs) =>
          if (sig_R rs <=? 0) || (sig_S rs <=? 0)
          then ([CallUnmarshal sig], Fail errInvalidECDSASignature)
          else ([CallUnmarshal sig; CallDigest h message;
                 CallECDSAVerify p (hashAlgorithm_digest h message)
                   (sig_R rs) (sig_S rs)],
                if ecdsa_Verify p (hashAlgorithm_digest h message)
                     (sig_R rs) (sig_S rs)
                then Ret tt else Fail errKeySignatureMismatch)
      end
  | PubRSA p =>
      match Certificate_SignatureAlgorithm cert with
      | SHA1WithRSA | SHA256WithRSA | SHA384WithRSA | SHA512WithRSA =>
          ([CallDigest h message;
            CallRSAVerifyPKCS1v15 p (hashAlgorithm_cryptoHash h)
              (hashAlgorithm_digest h message) sig],
           match rsa_VerifyPKCS1v15 p (hashAlgorithm_cryptoHash h)
                   (hashAlgorithm_digest h message) sig with
           | Some e => Fail (errLibrary e)
           | None => Ret tt
           end)
      | _ => ([], Fail errKeySignatureVerifyUnimplemented)
      end
  | PubOther => ([], Fail errKeySignatureVerifyUnimplemented)
  end.

(** What the documentation of [crypto/x509] says of the field [KeyUsages]
    of [VerifyOptions]: "An empty list means ExtKeyUsageServerAuth.  To
    accept any key usage, include ExtKeyUsageAny."  As a property of the
    library operation: validating with no key usage set is validating for
    server authentication. *)
Definition empty_KeyUsages_mean_ServerAuth : Prop :=
  forall (leaf : Certificate) (opts : x509_VerifyOptions),
    KeyUsages opts = [] ->
    Certificate_Verify leaf opts
    = Certificate_Verify leaf
        {| DNSName := DNSName opts;
           Intermediates := Intermediates opts;
           Roots := Roots opts;
           CurrentTime := CurrentTime opts;
           KeyUsages := [ExtKeyUsageServerAuth] |}.

(** When the verifiers accept: what the library answered for the key
    family of the leaf. *)
Definition accepted_by (cert : Certificate) (message sig : bytes)
    (h : hashAlgorithm) : Prop :=
  match Certificate_PublicKey cert with
  | PubEd25519 p => ed25519_Verify p message sig = true
  | PubECDSA p =>
      exists (tl : bytes) (rs : ecdsaSignature),
        asn1_Unmarshal sig = inr (tl, rs)
        /\ 0 < sig_R rs /\ 0 < sig_S rs
        /\ ecdsa_Verify p (hashAlgorithm_digest h message)
             (sig_R rs) (sig_S rs) = true
  | PubRSA p =>
      pkcs1v15_sha (Certificate_SignatureAlgorithm cert)
      /\ rsa_VerifyPKCS1v15 p (hashAlgorithm_cryptoHash h)
           (hashAlgorithm_digest h message) sig = None
  | PubOther => False
  end.

(** The private key and the key of the certificate are a pair for which
    the library's verification accepts what the library's signing makes:
    an Ed25519 signature verifies; an elliptic-curve DSA signature decodes
    to a pair of positive numbers that verifies; an RSA signature verifies
    under PKCS#1 v1.5, and the certificate names such an algorithm. *)
Definition matching_keys (privateKey : crypto_PrivateKey)
    (cert : Certificate) : Prop :=
  match privateKey, Certificate_PublicKey cert with
  | PrivEd25519 sk, PubEd25519 pk =>
      forall rnd msg opts sig,
        ed25519_Sign sk rnd msg opts = inr sig ->
        ed25519_Verify pk msg sig = true
  | PrivECDSA sk, PubECDSA pk =>
      forall rnd hashed opts sig,
        ecdsa_Sign sk rnd hashed opts = inr sig ->
        exists (tl : bytes) (rs : ecdsaSignature),
          asn1_Unmarshal sig = inr (tl, rs)
          /\ 0 < sig_R rs /\ 0 < sig_S rs
          /\ ecdsa_Verify pk hashed (sig_R rs) (sig_S rs) = true
  | PrivRSA sk, PubRSA pk =>
      pkcs1v15_sha (Certificate_SignatureAlgorithm cert)
      /\ forall rnd hashed opts sig,
           rsa_Sign sk rnd hashed opts = inr sig ->
           rsa_VerifyPKCS1v15 pk opts hashed sig = None
  | _, _ => False
  end.

End Functions.

(** ** A small executable instance of the libraries

    Keys are numbers; a certificate is the three bytes
    [kind; key; algorithm]; a signature is the key followed by the signed
    bytes; digests are 32 copies of a checksum.  The instance is used to
    run the functions on concrete inputs. *)
Module Toy.

Definition handles : Handles := {|
  ed25519_PrivateKey := Z;
  ecdsa_PrivateKey := Z;
  rsa_PrivateKey := Z;
  ed25519_PublicKey := Z;
  ecdsa_PublicKey := Z;
  rsa_PublicKey := Z;
  hashAlgorithm := Z;
  Certificate := bytes;
  CertPool := list bytes;
  time_Time := Z;
  Rand := unit;
  libError := nat
|}.
#[local] Existing Instance handles.

Definition checksum (b : bytes) : Z := uint8 (fold_left Z.add b 0).

Definition sum256 (b : bytes) : bytes := replicate 32 (checksum b).

Definition digest_of (h : Z) (b : bytes) : bytes :=
  replicate 32 (uint8 (h + checksum b)).

Definition sign (key : Z) (_ : unit) (msg : bytes) (_ : Z) : nat + bytes :=
  inr (key :: msg).

Definition bytes_eqb (a b : bytes) : bool := bool_decide (a = b).

Definition parse (raw : bytes) : nat + bytes :=
  match raw with
  | [kind; _; _] => if decide (0 <= kind <= 3) then inr raw else inl 1%nat
  | _ => inl 1%nat
  end.

Definition unmarshal (sig : bytes) : nat + (bytes * ecdsaSignature) :=
  match sig with
  | r :: s :: rest => inr (rest, {| sig_R := r; sig_S := s |})
  | _ => inl 2%nat
  end.

Definition public_key (c : bytes) : @crypto_PublicKey handles :=
  match c with
  | [0; k; _] => @PubEd25519 handles k
  | [1; k; _] => @PubECDSA handles k
  | [2; k; _] => @PubRSA handles k
  | _ => @PubOther handles
  end.

Definition signature_algorithm (c : bytes) : x509_SignatureAlgorithm :=
  match c with
  | [_; _; 3] => SHA1WithRSA
  | [_; _; 4] => SHA256WithRSA
  | [_; _; 5] => SHA384WithRSA
  | [_; _; 6] => SHA512WithRSA
  | [_; _; 13] => SHA256WithRSAPSS
  | [_; _; 16] => PureEd25519
  | _ => UnknownSignatureAlgorithm
  end.

Definition verify_chain (leaf : bytes) (opts : @x509_VerifyOptions handles)
    : nat + list (list bytes) :=
  if bool_decide (leaf ∈ @Roots handles opts)
  then inr [[leaf]]
  else inl 3%nat.

Definition primitives : @Primitives handles := {|
  hashAlgorithm_digest := digest_of;
  hashAlgorithm_cryptoHash := fun h : Z => h + 1;
  sha256_Sum := sum256;
  sha256_Size := fun b => length_replicate 32 (checksum b);
  ed25519_Sign := sign;
  ecdsa_Sign := sign;
  rsa_Sign := sign;
  ed25519_Verify := fun p msg sig => bytes_eqb sig (p :: msg);
  ecdsa_Verify := fun p hashed r s => bytes_eqb [r; s] (p :: take 1 hashed);
  rsa_VerifyPKCS1v15 := fun p _ hashed sig =>
    if bytes_eqb sig (p :: hashed) then None else Some 4%nat;
  asn1_Unmarshal := unmarshal;
  x509_ParseCertificate := parse;
  Certificate_PublicKey := public_key;
  Certificate_SignatureAlgorithm := signature_algorithm;
  x509_NewCertPool := [];
  CertPool_AddCert := fun pool c => pool ++ [c];
  Certificate_Verify := verify_chain
|}.

End Toy.

(** ** An instance whose [Verify] follows the documented options

    The handles and the cryptographic operations are those of [Toy]; a
    certificate is the five bytes [kind; key; algorithm; usage; name].
    [verify] treats the options as the documentation of [crypto/x509]
    describes them: [DNSName], if set, is checked against the names of the
    leaf; a chain is accepted if it allows one of [KeyUsages], where an
    empty list means [ExtKeyUsageServerAuth] and [ExtKeyUsageAny] accepts
    any usage; a certificate without extended key usages, or with
    [ExtKeyUsageAny], allows every usage.  Path building is reduced to its
    simplest case: the leaf is one of the roots. *)
Module DocumentedX509.

#[local] Existing Instance Toy.handles.

Definition cert_ExtKeyUsage (c : bytes) : list x509_ExtKeyUsage :=
  match c with
  | [_; _; _; 1; _] => [ExtKeyUsageServerAuth]
  | [_; _; _; 2; _] => [ExtKeyUsageClientAuth]
  | [_; _; _; 3; _] => [ExtKeyUsageServerAuth; ExtKeyUsageClientAuth]
  | [_; _; _; 4; _] => [ExtKeyUsageAny]
  | _ => []
  end.

Definition cert_DNSNames (c : bytes) : list string :=
  match c with
  | [_; _; _; _; 1] => ["a.example"%string]
  | [_; _; _; _; 2] => ["b.example"%string]
  | [_; _; _; _; 3] => ["a.example"%string; "b.example"%string]
  | _ => []
  end.

Definition parse (raw : bytes) : nat + bytes :=
  match raw with
  | [kind; _; _; _; _] =>
      if decide (0 <= kind <= 3) then inr raw else inl 1%nat
  | _ => inl 1%nat
  end.

(** [DNSName], if set, is checked against the leaf. *)
Definition name_allowed (c : bytes) (name : string) : bool :=
  if String.eqb name EmptyString then true
  else existsb (String.eqb name) (cert_DNSNames c).

(** A certificate allows one of the requested usages. *)
Definition usage_allowed (c : bytes) (requested : list x509_ExtKeyUsage)
    : bool :=
  let usages :=
    match requested with
    | [] => [ExtKeyUsageServerAuth]
    | _ => requested
    end in
  bool_decide (ExtKeyUsageAny ∈ usages)
  || match cert_ExtKeyUsage c with
     | [] => true
     | allowed =>
         bool_decide (ExtKeyUsageAny ∈ allowed)
         || existsb (fun u => bool_decide (u ∈ allowed)) usages
     end.

Definition verify (leaf : bytes) (opts : @x509_VerifyOptions Toy.handles)
    : nat + list (list bytes) :=
  if negb (bool_decide (leaf ∈ @Roots Toy.handles opts)) then inl 3%nat
  else if negb (name_allowed leaf (@DNSName Toy.handles opts)) then inl 5%nat
  else if negb (usage_allowed leaf (@KeyUsages Toy.handles opts)) then inl 6%nat
  else inr [[leaf]].

Definition primitives : @Primitives Toy.handles := {|
  hashAlgorithm_digest := Toy.digest_of;
  hashAlgorithm_cryptoHash := fun h : Z => h + 1;
  sha256_Sum := Toy.sum256;
  sha256_Size := fun b => length_replicate 32 (Toy.checksum b);
  ed25519_Sign := Toy.sign;
  ecdsa_Sign := Toy.sign;
  rsa_Sign := Toy.sign;
  ed25519_Verify := fun p msg sig => Toy.bytes_eqb sig (p :: msg);
  ecdsa_Verify := fun p hashed r s =>
    Toy.bytes_eqb [r; s] (p :: take 1 hashed);
  rsa_VerifyPKCS1v15 := fun p _ hashed sig =>
    if Toy.bytes_eqb sig (p :: hashed) then None else Some 4%nat;
  asn1_Unmarshal := Toy.unmarshal;
  x509_ParseCertificate := parse;
  Certificate_PublicKey := fun c => Toy.public_key (take 3 c);
  Certificate_SignatureAlgorithm := fun c => Toy.signature_algorithm (take 3 c);
  x509_NewCertPool := [];
  CertPool_AddCert := fun pool c => pool ++ [c];
  Certificate_Verify := verify
|}.

End DocumentedX509.

(** * Properties *)

(** ** Evaluation on concrete inputs *)

Example generateAEADAdditionalData_example :
  generateAEADAdditionalData
    {| contentType := 23; protocolVersion_ := {| major := 254; minor := 253 |};
       epoch := 1; sequenceNumber := 5 |} 16
  = Some [0; 1; 0; 0; 0; 0; 0; 5; 23; 254; 253; 0; 16].
Proof. reflexivity. Qed.

Example valueKeyMessage_example :
  valueKeyMessage [1; 2] [3; 4] [9; 9; 9] 29
  = Some [1; 2; 3; 4; 3; 0; 29; 3; 9; 9; 9].
Proof. reflexivity. Qed.

(** ** Bytes *)

Lemma uint8_is_byte (x : Z) : is_byte (uint8 x).
Proof. unfold is_byte, uint8. apply Z.mod_pos_bound. lia. Qed.

Lemma uint8_id (x : Z) : is_byte x -> uint8 x = x.
Proof. unfold is_byte, uint8. intros Hx. apply Z.mod_small. exact Hx. Qed.

(** A store within the bounds of the slice does not panic. *)
Lemma store_in_range (b : bytes) (i : nat) (v : Z) :
  (i < length b)%nat -> store b i v = Some (<[i := v]> b).
Proof. intros Hi. unfold store. rewrite decide_True by exact Hi. reflexivity. Qed.

Lemma store_out_of_range (b : bytes) (i : nat) (v : Z) :
  (length b <= i)%nat -> store b i v = None.
Proof. intros Hi. unfold store. rewrite decide_False by lia. reflexivity. Qed.

Lemma PutUint16_in_range (b : bytes) (off : nat) (v : Z) :
  (off + 1 < length b)%nat ->
  PutUint16 b off v
  = Some (<[(off + 1)%nat := uint8 v]> (<[off := uint8 (Z.shiftr v 8)]> b)).
Proof.
  intros Hoff. unfold PutUint16.
  destruct (lookup_lt_is_Some_2 b (off + 1)%nat Hoff) as [x ->].
  cbn [mbind option_bind].
  rewrite store_in_range by lia. cbn [mbind option_bind].
  apply store_in_range. rewrite length_insert. exact Hoff.
Qed.

Lemma PutUint64_in_range (b : bytes) (off : nat) (v : Z) :
  (off + 7 < length b)%nat ->
  PutUint64 b off v
  = Some (<[(off + 7)%nat := uint8 v]>
         (<[(off + 6)%nat := uint8 (Z.shiftr v 8)]>
         (<[(off + 5)%nat := uint8 (Z.shiftr v 16)]>
         (<[(off + 4)%nat := uint8 (Z.shiftr v 24)]>
         (<[(off + 3)%nat := uint8 (Z.shiftr v 32)]>
         (<[(off + 2)%nat := uint8 (Z.shiftr v 40)]>
         (<[(off + 1)%nat := uint8 (Z.shiftr v 48)]>
         (<[off := uint8 (Z.shiftr v 56)]> b)))))))).
Proof.
  intros Hoff. unfold PutUint64.
  destruct (lookup_lt_is_Some_2 b (off + 7)%nat Hoff) as [x ->].
  cbn [mbind option_bind].
  repeat (rewrite store_in_range by (rewrite ?length_insert; lia);
          cbn [mbind option_bind]).
  reflexivity.
Qed.

(** Splitting a number into its two low bytes and reading them back. *)
Lemma be_value_2 (v : Z) :
  be_value [uint8 (Z.shiftr v 8); uint8 v] = v mod 2 ^ 16.
Proof.
  unfold be_value, uint8. cbn [fold_left].
  rewrite Z.shiftr_div_pow2 by lia.
  change (2 ^ 8) with 256. change (2 ^ 16) with 65536.
  Z.div_mod_to_equations. lia.
Qed.

(** The six low bytes that [PutUint64] writes, read back. *)
Lemma be_value_6 (v : Z) :
  be_value [uint8 (Z.shiftr v 40); uint8 (Z.shiftr v 32); uint8 (Z.shiftr v 24);
            uint8 (Z.shiftr v 16); uint8 (Z.shiftr v 8); uint8 v]
  = v mod 2 ^ 48.
Proof.
  unfold be_value, uint8. cbn [fold_left].
  rewrite !Z.shiftr_div_pow2 by lia.
  change (2 ^ 8) with 256. change (2 ^ 16) with 65536.
  change (2 ^ 24) with 16777216. change (2 ^ 32) with 4294967296.
  change (2 ^ 40) with 1099511627776. change (2 ^ 48) with 281474976710656.
  Z.div_mod_to_equations. lia.
Qed.

(** ** The key-exchange message *)

(** No store of [valueKeyMessage] is out of range: the function returns,
    and what it returns is a concatenation. *)
Lemma valueKeyMessage_eq (clientRandom serverRandom publicKey : bytes)
    (namedCurve : Z) :
  valueKeyMessage clientRandom serverRandom publicKey namedCurve
  = Some (clientRandom ++ serverRandom
          ++ curveParams namedCurve publicKey ++ publicKey).
Proof.
  unfold valueKeyMessage, curveParams, make.
  rewrite store_in_range by (cbn; lia). cbn [mbind option_bind].
  rewrite PutUint16_in_range by (cbn; lia). cbn [mbind option_bind].
  rewrite store_in_range by (cbn; lia). cbn.
  rewrite <- !app_assoc. reflexivity.
Qed.

Lemma curveParams_id (namedCurve : Z) (publicKey : bytes) :
  0 <= namedCurve < 2 ^ 16 ->
  be_value (take 2 (drop 1 (curveParams namedCurve publicKey))) = namedCurve.
Proof.
  intros Hc. unfold curveParams. cbn [take drop].
  rewrite be_value_2. unfold uint16.
  rewrite Z.mod_mod by lia. apply Z.mod_small. exact Hc.
Qed.

(** C3, as amended.  For all inputs with a 16-bit curve identifier,
    [valueKeyMessage] returns (it has no error condition) exactly
    [clientRandom ++ serverRandom ++ params ++ publicKey], where [params] is
    four bytes: the tag 3, the curve identifier in two big-endian bytes, and
    one byte holding the length of [publicKey] reduced modulo 256, which is
    the length of [publicKey] whenever that length is at most 255. *)
Theorem valueKeyMessage_layout (clientRandom serverRandom publicKey : bytes)
    (namedCurve : Z) :
  0 <= namedCurve < 2 ^ 16 ->
  exists params : bytes,
    valueKeyMessage clientRandom serverRandom publicKey namedCurve
      = Some (clientRandom ++ serverRandom ++ params ++ publicKey)
    /\ length params = 4%nat
    /\ Forall is_byte params
    /\ params !! 0%nat = Some 3
    /\ be_value (take 2 (drop 1 params)) = namedCurve
    /\ params !! 3%nat = Some (Z.of_nat (length publicKey) mod 256)
    /\ ((length publicKey <= 255)%nat ->
        params !! 3%nat = Some (Z.of_nat (length publicKey))).
Proof.
  intros Hc. exists (curveParams namedCurve publicKey).
  split; [apply valueKeyMessage_eq|].
  split; [reflexivity|].
  split.
  { unfold curveParams.
    repeat (apply Forall_cons_2;
              [first [apply uint8_is_byte | unfold is_byte; lia]|]).
    apply Forall_nil_2. }
  split; [reflexivity|].
  split; [apply curveParams_id; exact Hc|].
  split; [reflexivity|].
  intros Hlen. cbn. f_equal. unfold uint8.
  apply Z.mod_small. change (2 ^ 8) with 256. lia.
Qed.

(** C3, as stated, fails: for a public key of 256 bytes the message is not
    the claimed concatenation with a length byte equal to the length of the
    key; the length byte is 0. *)
Lemma valueKeyMessage_length_byte_wraps :
  valueKeyMessage [1] [2] (replicate 256 7) 29
    <> Some ([1] ++ [2]
             ++ [3; 0; 29; Z.of_nat (length (replicate 256 7))]
             ++ replicate 256 7)
  /\ exists out : bytes,
       valueKeyMessage [1] [2] (replicate 256 7) 29 = Some out
       /\ out !! 5%nat = Some 0.
Proof.
  split.
  - intros Heq. vm_compute in Heq. discriminate Heq.
  - eexists. split; [apply valueKeyMessage_eq|]. vm_compute. reflexivity.
Qed.

(** C10.  For every public key longer than 255 bytes, [valueKeyMessage]
    still returns: the length byte holds the key length reduced modulo 256,
    the whole key follows it, and so the declared length differs from the
    length of what was appended. *)
Theorem valueKeyMessage_long_key (clientRandom serverRandom publicKey : bytes)
    (namedCurve : Z) :
  (255 < length publicKey)%nat ->
  exists out : bytes,
    valueKeyMessage clientRandom serverRandom publicKey namedCurve = Some out
    /\ out !! (length clientRandom + length serverRandom + 3)%nat
       = Some (Z.of_nat (length publicKey) mod 256)
    /\ drop (length clientRandom + length serverRandom + 4) out = publicKey
    /\ Z.of_nat (length publicKey) mod 256 <> Z.of_nat (length publicKey).
Proof.
  intros Hlen. eexists. split; [apply valueKeyMessage_eq|].
  split; [|split].
  - rewrite app_assoc.
    rewrite lookup_app_r by (rewrite length_app; lia).
    rewrite length_app.
    replace (_ + _ + 3 - _)%nat with 3%nat by lia.
    reflexivity.
  - rewrite !app_assoc. rewrite drop_app_length'; [reflexivity|].
    rewrite !length_app. cbn. lia.
  - pose proof (Z.mod_pos_bound (Z.of_nat (length publicKey)) 256). lia.
Qed.

(** ** The AEAD additional data *)

(** No store of [generateAEADAdditionalData] is out of range; the thirteen
    bytes it returns. *)
Lemma generateAEADAdditionalData_eq (h : recordLayerHeader) (payloadLen : Z) :
  generateAEADAdditionalData h payloadLen
  = Some [uint8 (Z.shiftr (epoch h) 8); uint8 (epoch h);
          uint8 (Z.shiftr (sequenceNumber h) 40);
          uint8 (Z.shiftr (sequenceNumber h) 32);
          uint8 (Z.shiftr (sequenceNumber h) 24);
          uint8 (Z.shiftr (sequenceNumber h) 16);
          uint8 (Z.shiftr (sequenceNumber h) 8);
          uint8 (sequenceNumber h);
          uint8 (contentType h);
          major (protocolVersion_ h);
          minor (protocolVersion_ h);
          uint8 (Z.shiftr (uint16 payloadLen) 8); uint8 (uint16 payloadLen)].
Proof.
  unfold generateAEADAdditionalData, make.
  rewrite PutUint64_in_range by (cbn; lia). cbn [mbind option_bind].
  rewrite PutUint16_in_range by (cbn; lia). cbn [mbind option_bind].
  repeat (rewrite store_in_range by (cbn; lia); cbn [mbind option_bind]).
  rewrite PutUint16_in_range by (cbn; lia). cbn [mbind option_bind].
  reflexivity.
Qed.

(** C2.  For every header (with fields in the ranges of their Go types) and
    every payload length, [generateAEADAdditionalData] returns exactly 13
    bytes: read big-endian, bytes 0-1 are the epoch and bytes 2-7 are the low
    48 bits of the sequence number (its bits above 48 do not reach the
    output); byte 8 is the content type, bytes 9 and 10 the major and minor
    version, and bytes 11-12 the 16-bit payload length.  For the header
    epoch 1, sequence number 5, content type 23, version 254.253 and payload
    length 16 the output is 00 01 00 00 00 00 00 05 17 FE FD 00 10. *)
Theorem generateAEADAdditionalData_layout (h : recordLayerHeader)
    (payloadLen : Z) :
  header_wf h ->
  (exists out : bytes,
     generateAEADAdditionalData h payloadLen = Some out
     /\ length out = 13%nat
     /\ Forall is_byte out
     /\ be_value (take 2 out) = epoch h
     /\ be_value (take 6 (drop 2 out)) = sequenceNumber h mod 2 ^ 48
     /\ out !! 8%nat = Some (contentType h)
     /\ out !! 9%nat = Some (major (protocolVersion_ h))
     /\ out !! 10%nat = Some (minor (protocolVersion_ h))
     /\ be_value (drop 11 out) = payloadLen mod 2 ^ 16)
  /\ generateAEADAdditionalData
       {| contentType := 23;
          protocolVersion_ := {| major := 254; minor := 253 |};
          epoch := 1; sequenceNumber := 5 |} 16
     = Some [0; 1; 0; 0; 0; 0; 0; 5; 23; 254; 253; 0; 16].
Proof.
  intros [Hct Hmaj Hmin Hep Hseq]. split; [|reflexivity].
  eexists. split; [apply generateAEADAdditionalData_eq|].
  split; [reflexivity|].
  split.
  { repeat (apply Forall_cons_2;
              [first [apply uint8_is_byte | exact Hmaj | exact Hmin]|]).
    apply Forall_nil_2. }
  split.
  { cbn [take]. rewrite be_value_2. apply Z.mod_small. exact Hep. }
  split.
  { cbn [take drop]. apply be_value_6. }
  split.
  { cbn. f_equal. apply uint8_id. exact Hct. }
  split; [reflexivity|].
  split; [reflexivity|].
  cbn [drop]. rewrite be_value_2. unfold uint16. apply Z.mod_mod. lia.
Qed.

(** ** Signers, verifiers and chain validators *)

Section Proofs.
Context `{Primitives}.

(** Running a bind whose first computation is known. *)
Lemma bind_ret {A B} (t : list Call) (a : A) (k : A -> M B) :
  (t, Ret a) ≫= k = (t ++ trace (k a), result (k a)).
Proof. unfold mbind, M_bind, bind, trace, result. destruct (k a); reflexivity. Qed.

Lemma bind_fail {A B} (t : list Call) (e : error) (k : A -> M B) :
  (t, Fail e) ≫= k = (t, Fail e).
Proof. reflexivity. Qed.

Lemma bind_panic {A B} (t : list Call) (k : A -> M B) :
  (t, @Panic _ A) ≫= k = (t, Panic).
Proof. reflexivity. Qed.

Lemma pair_trace_result {A} (m : M A) : (trace m, result m) = m.
Proof. destruct m; reflexivity. Qed.

(** C6.  With an empty certificate chain, [verifyKeySignature],
    [verifyCertificateVerify] and [loadCerts], and hence [verifyClientCert]
    and [verifyServerCert], fail with [errLengthMismatch] (the error the
    specification calls EmptyChain) whatever the other arguments are, and
    before any library call. *)
Theorem empty_chain_rejected (message sig : bytes) (h : hashAlgorithm)
    (roots : CertPool) (serverName : string) (clock : time_Time) :
  verifyKeySignature message sig h [] = ([], Fail errLengthMismatch)
  /\ verifyCertificateVerify message h sig [] = ([], Fail errLengthMismatch)
  /\ loadCerts [] = ([], Fail errLengthMismatch)
  /\ verifyClientCert [] roots clock = ([], Fail errLengthMismatch)
  /\ verifyServerCert [] roots serverName clock = ([], Fail errLengthMismatch).
Proof. repeat split; reflexivity. Qed.

(** *** The key-exchange signer *)

(** C4.  [generateKeySignature] builds the canonical key-exchange message,
    the bytes [clientRandom ++ serverRandom ++ params ++ publicKey] with
    the four parameter bytes of [valueKeyMessage] (tag 3, the curve in two
    big-endian bytes, the truncated key length),
    and then: for an Edwards-curve key it signs the message itself, with
    [crypto.Hash(0)] and without computing any digest; for an
    elliptic-curve DSA or RSA key it first computes
    [hashAlgorithm.digest(message)] and then signs that digest under
    [hashAlgorithm.cryptoHash()]; for any other key it fails with
    [errKeySignatureGenerateUnimplemented] (UnsupportedKeyType in the
    specification) and signs nothing. *)
Theorem generateKeySignature_dispatch
    (clientRandom serverRandom publicKey : bytes) (namedCurve : Z)
    (h : hashAlgorithm) (rnd : Rand) :
  exists msg : bytes,
    msg = clientRandom ++ serverRandom
          ++ [3; uint8 (Z.shiftr (uint16 namedCurve) 8);
              uint8 (uint16 namedCurve);
              uint8 (Z.of_nat (length publicKey))]
          ++ publicKey
    /\ valueKeyMessage clientRandom serverRandom publicKey namedCurve = Some msg
    /\ (forall p,
         generateKeySignature clientRandom serverRandom publicKey namedCurve
           (PrivEd25519 p) h rnd
         = ([CallSign (PrivEd25519 p) msg 0],
            of_lib (ed25519_Sign p rnd msg 0)))
    /\ (forall p,
         generateKeySignature clientRandom serverRandom publicKey namedCurve
           (PrivECDSA p) h rnd
         = ([CallDigest h msg;
             CallSign (PrivECDSA p) (hashAlgorithm_digest h msg)
               (hashAlgorithm_cryptoHash h)],
            of_lib (ecdsa_Sign p rnd (hashAlgorithm_digest h msg)
                      (hashAlgorithm_cryptoHash h))))
    /\ (forall p,
         generateKeySignature clientRandom serverRandom publicKey namedCurve
           (PrivRSA p) h rnd
         = ([CallDigest h msg;
             CallSign (PrivRSA p) (hashAlgorithm_digest h msg)
               (hashAlgorithm_cryptoHash h)],
            of_lib (rsa_Sign p rnd (hashAlgorithm_digest h msg)
                      (hashAlgorithm_cryptoHash h))))
    /\ generateKeySignature clientRandom serverRandom publicKey namedCurve
         PrivOther h rnd
       = ([], Fail errKeySignatureGenerateUnimplemented).
Proof.
  eexists. split; [reflexivity|].
  split; [apply valueKeyMessage_eq|].
  unfold generateKeySignature. rewrite valueKeyMessage_eq.
  repeat split; intros; reflexivity.
Qed.

(** *** The verifiers *)

(** The two verifiers are the same code over differently named arguments. *)
Lemma verifyCertificateVerify_verifyKeySignature (handshakeBodies sig : bytes)
    (h : hashAlgorithm) (rawCertificates : list bytes) :
  verifyCertificateVerify handshakeBodies h sig rawCertificates
  = verifyKeySignature handshakeBodies sig h rawCertificates.
Proof. reflexivity. Qed.

Lemma big_Sign_nonpos (x : Z) : (big_Sign x <=? 0) = (x <=? 0).
Proof. unfold big_Sign. destruct x; reflexivity. Qed.

Lemma verifyKeySignature_parsed (message sig : bytes) (h : hashAlgorithm)
    (leaf : bytes) (rest : list bytes) (cert : Certificate) :
  x509_ParseCertificate leaf = inr cert ->
  verifyKeySignature message sig h (leaf :: rest)
  = (CallParseCertificate leaf :: trace (verify_with cert message sig h),
     result (verify_with cert message sig h)).
Proof.
  intros Hparse.
  unfold verifyKeySignature, x509ParseCertificate, call, verify_with.
  cbn [length of_option lookup list_lookup]. rewrite decide_False by discriminate.
  unfold ret. rewrite bind_ret. cbn [app].
  rewrite Hparse. cbn [of_lib]. rewrite bind_ret.
  destruct (Certificate_PublicKey cert) as [p|p|p|].
  - unfold ed25519Verify, call. rewrite bind_ret.
    destruct (ed25519_Verify p message sig); reflexivity.
  - unfold asn1Unmarshal, call.
    destruct (asn1_Unmarshal sig) as [e|[tl rs]]; [reflexivity|].
    rewrite bind_ret. rewrite !big_Sign_nonpos.
    destruct ((sig_R rs <=? 0) || (sig_S rs <=? 0)); [reflexivity|].
    unfold digest, ecdsaVerify, call. rewrite !bind_ret.
    destruct (ecdsa_Verify p (hashAlgorithm_digest h message) (sig_R rs) (sig_S rs));
      reflexivity.
  - destruct (Certificate_SignatureAlgorithm cert); try reflexivity;
      unfold digest, rsaVerifyPKCS1v15, call; rewrite bind_ret; reflexivity.
  - reflexivity.
Qed.

Lemma verifyKeySignature_unparsed (message sig : bytes) (h : hashAlgorithm)
    (leaf : bytes) (rest : list bytes) (e : libError) :
  x509_ParseCertificate leaf = inl e ->
  verifyKeySignature message sig h (leaf :: rest)
  = ([CallParseCertificate leaf], Fail (errLibrary e)).
Proof.
  intros Hparse. unfold verifyKeySignature, x509ParseCertificate, call.
  cbn [length of_option lookup list_lookup]. rewrite decide_False by discriminate.
  unfold ret. rewrite bind_ret. rewrite Hparse. reflexivity.
Qed.

(** C5.  In both verifiers, when the leaf key is an elliptic-curve DSA key
    and the signature decodes to a pair (R, S) with R <= 0 or S <= 0, the
    call fails with [errInvalidECDSASignature] (InvalidSignatureEncoding in
    the specification); the only library calls made are the parse of the
    leaf and the decoding of the signature: no digest is computed and
    [ecdsa.Verify] is not called. *)
Theorem ecdsa_nonpositive_signature_rejected (message sig : bytes)
    (h : hashAlgorithm) (leaf : bytes) (rest : list bytes)
    (cert : Certificate) (p : ecdsa_PublicKey) (tl : bytes)
    (rs : ecdsaSignature) :
  x509_ParseCertificate leaf = inr cert ->
  Certificate_PublicKey cert = PubECDSA p ->
  asn1_Unmarshal sig = inr (tl, rs) ->
  sig_R rs <= 0 \/ sig_S rs <= 0 ->
  verifyKeySignature message sig h (leaf :: rest)
    = ([CallParseCertificate leaf; CallUnmarshal sig],
       Fail errInvalidECDSASignature)
  /\ verifyCertificateVerify message h sig (leaf :: rest)
    = ([CallParseCertificate leaf; CallUnmarshal sig],
       Fail errInvalidECDSASignature).
Proof.
  intros Hparse Hkey Hsig Hrs.
  rewrite verifyCertificateVerify_verifyKeySignature.
  rewrite (verifyKeySignature_parsed _ _ _ _ _ _ Hparse).
  unfold verify_with. rewrite Hkey, Hsig.
  replace ((sig_R rs <=? 0) || (sig_S rs <=? 0)) with true; [split; reflexivity|].
  symmetry. apply orb_true_iff.
  destruct Hrs as [Hr|Hs]; [left|right]; apply Z.leb_le; assumption.
Qed.

(** C8.  In both verifiers, when the leaf key is an RSA key: if the leaf
    certificate's signature algorithm is PKCS#1 v1.5 with SHA-1, SHA-256,
    SHA-384 or SHA-512, the digest of the message under the negotiated
    hash is checked with [rsa.VerifyPKCS1v15], whose verdict is the outcome;
    under any other signature algorithm the call fails with
    [errKeySignatureVerifyUnimplemented] (UnsupportedKeyType in the
    specification) and nothing is verified.  A leaf key outside the three
    families fails with the same error. *)
Theorem rsa_requires_pkcs1v15_sha (message sig : bytes) (h : hashAlgorithm)
    (leaf : bytes) (rest : list bytes) (cert : Certificate) :
  x509_ParseCertificate leaf = inr cert ->
  verifyCertificateVerify message h sig (leaf :: rest)
    = verifyKeySignature message sig h (leaf :: rest)
  /\ (forall p, Certificate_PublicKey cert = PubRSA p ->
        pkcs1v15_sha (Certificate_SignatureAlgorithm cert) ->
        verifyKeySignature message sig h (leaf :: rest)
        = ([CallParseCertificate leaf; CallDigest h message;
            CallRSAVerifyPKCS1v15 p (hashAlgorithm_cryptoHash h)
              (hashAlgorithm_digest h message) sig],
           match rsa_VerifyPKCS1v15 p (hashAlgorithm_cryptoHash h)
                   (hashAlgorithm_digest h message) sig with
           | Some e => Fail (errLibrary e)
           | None => Ret tt
           end))
  /\ (forall p, Certificate_PublicKey cert = PubRSA p ->
        ~ pkcs1v15_sha (Certificate_SignatureAlgorithm cert) ->
        verifyKeySignature message sig h (leaf :: rest)
        = ([CallParseCertificate leaf],
           Fail errKeySignatureVerifyUnimplemented))
  /\ (Certificate_PublicKey cert = PubOther ->
        verifyKeySignature message sig h (leaf :: rest)
        = ([CallParseCertificate leaf],
           Fail errKeySignatureVerifyUnimplemented)).
Proof.
  intros Hparse. split; [reflexivity|].
  rewrite (verifyKeySignature_parsed _ _ _ _ _ _ Hparse).
  unfold verify_with, pkcs1v15_sha.
  split; [|split].
  - intros p -> [Ha|[Ha|[Ha|Ha]]]; rewrite Ha; reflexivity.
  - intros p -> Hna.
    destruct (Certificate_SignatureAlgorithm cert);
      first [reflexivity | exfalso; apply Hna; tauto].
  - intros ->. reflexivity.
Qed.

(** *** The certificate-verify signer *)

(** [generateCertificateVerify] digests the transcript with SHA-256 before
    it looks at the key, and signs that digest under every key family. *)
Lemma generateCertificateVerify_eq (handshakeBodies : bytes)
    (privateKey : crypto_PrivateKey) (h : hashAlgorithm) (rnd : Rand) :
  generateCertificateVerify handshakeBodies privateKey h rnd
  = match privateKey with
    | PrivEd25519 p =>
        ([CallSHA256 handshakeBodies;
          CallSign privateKey (sha256_Sum handshakeBodies) 0],
         of_lib (ed25519_Sign p rnd (sha256_Sum handshakeBodies) 0))
    | PrivECDSA p =>
        ([CallSHA256 handshakeBodies;
          CallSign privateKey (sha256_Sum handshakeBodies)
            (hashAlgorithm_cryptoHash h)],
         of_lib (ecdsa_Sign p rnd (sha256_Sum handshakeBodies)
                   (hashAlgorithm_cryptoHash h)))
    | PrivRSA p =>
        ([CallSHA256 handshakeBodies;
          CallSign privateKey (sha256_Sum handshakeBodies)
            (hashAlgorithm_cryptoHash h)],
         of_lib (rsa_Sign p rnd (sha256_Sum handshakeBodies)
                   (hashAlgorithm_cryptoHash h)))
    | PrivOther =>
        ([CallSHA256 handshakeBodies], Fail errInvalidSignatureAlgorithm)
    end.
Proof. destruct privateKey; reflexivity. Qed.

(** The elliptic-curve DSA and RSA sides of C1: the signer digests the
    transcript with SHA-256 whatever the negotiated hash is, the verifier
    digests it with the negotiated hash. *)
Lemma certificateVerify_prehash_asymmetry (handshakeBodies sig : bytes)
    (h : hashAlgorithm) (rnd : Rand) (leaf : bytes) (rest : list bytes)
    (cert : Certificate) (tl : bytes) (rs : ecdsaSignature) :
  x509_ParseCertificate leaf = inr cert ->
  asn1_Unmarshal sig = inr (tl, rs) ->
  0 < sig_R rs -> 0 < sig_S rs ->
  pkcs1v15_sha (Certificate_SignatureAlgorithm cert) ->
  (forall p,
     trace (generateCertificateVerify handshakeBodies (PrivECDSA p) h rnd)
     = [CallSHA256 handshakeBodies;
        CallSign (PrivECDSA p) (sha256_Sum handshakeBodies)
          (hashAlgorithm_cryptoHash h)])
  /\ (forall p,
     trace (generateCertificateVerify handshakeBodies (PrivRSA p) h rnd)
     = [CallSHA256 handshakeBodies;
        CallSign (PrivRSA p) (sha256_Sum handshakeBodies)
          (hashAlgorithm_cryptoHash h)])
  /\ (forall p, Certificate_PublicKey cert = PubECDSA p ->
     trace (verifyCertificateVerify handshakeBodies h sig (leaf :: rest))
     = [CallParseCertificate leaf; CallUnmarshal sig;
        CallDigest h handshakeBodies;
        CallECDSAVerify p (hashAlgorithm_digest h handshakeBodies)
          (sig_R rs) (sig_S rs)])
  /\ (forall p, Certificate_PublicKey cert = PubRSA p ->
     trace (verifyCertificateVerify handshakeBodies h sig (leaf :: rest))
     = [CallParseCertificate leaf; CallDigest h handshakeBodies;
        CallRSAVerifyPKCS1v15 p (hashAlgorithm_cryptoHash h)
          (hashAlgorithm_digest h handshakeBodies) sig]).
Proof.
  intros Hparse Hsig HR HS Halg.
  rewrite verifyCertificateVerify_verifyKeySignature.
  rewrite (verifyKeySignature_parsed _ _ _ _ _ _ Hparse).
  unfold verify_with, pkcs1v15_sha in *.
  repeat split; intros p; try reflexivity.
  - intros ->. rewrite Hsig.
    replace ((sig_R rs <=? 0) || (sig_S rs <=? 0)) with false; [reflexivity|].
    symmetry. apply orb_false_iff. split; apply Z.leb_gt; assumption.
  - intros ->. destruct Halg as [Ha|[Ha|[Ha|Ha]]]; rewrite Ha; reflexivity.
Qed.

(** C1, the Edwards-curve signer.  [generateCertificateVerify] with an
    Ed25519 key does not sign the raw transcript: the one message it signs
    is the SHA-256 digest of the transcript, which differs from every
    transcript that is not 32 bytes long; [verifyCertificateVerify] with an
    Ed25519 leaf key checks the signature against the raw transcript. *)
Theorem generateCertificateVerify_ed25519_signs_digest
    (handshakeBodies sig : bytes) (h : hashAlgorithm) (rnd : Rand)
    (priv : ed25519_PrivateKey) (leaf : bytes) (rest : list bytes)
    (cert : Certificate) (pub : ed25519_PublicKey) :
  length handshakeBodies <> 32%nat ->
  x509_ParseCertificate leaf = inr cert ->
  Certificate_PublicKey cert = PubEd25519 pub ->
  trace (generateCertificateVerify handshakeBodies (PrivEd25519 priv) h rnd)
    = [CallSHA256 handshakeBodies;
       CallSign (PrivEd25519 priv) (sha256_Sum handshakeBodies) 0]
  /\ sha256_Sum handshakeBodies <> handshakeBodies
  /\ trace (verifyCertificateVerify handshakeBodies h sig (leaf :: rest))
    = [CallParseCertificate leaf; CallEd25519Verify pub handshakeBodies sig].
Proof.
  intros Hlen Hparse Hkey. split; [reflexivity|]. split.
  - intros Heq. apply Hlen. rewrite <- Heq. apply sha256_Size.
  - rewrite verifyCertificateVerify_verifyKeySignature.
    rewrite (verifyKeySignature_parsed _ _ _ _ _ _ Hparse).
    unfold verify_with. rewrite Hkey. reflexivity.
Qed.

(** *** Loading a chain *)

(** The loop over a prefix whose certificates all parse: each is parsed, in
    order, and appended to the slice; the loop goes on with the rest. *)
Lemma loadCerts_loop_parsed (good : list bytes) (certs : list Certificate)
    (rest : list bytes) (acc : list Certificate) :
  parsed_as good certs ->
  loadCerts_loop (good ++ rest) acc
  = ((CallParseCertificate <$> good)
       ++ trace (loadCerts_loop rest (acc ++ certs)),
     result (loadCerts_loop rest (acc ++ certs))).
Proof.
  intros Hgood. revert acc.
  induction Hgood as [|raw cert good certs Hraw Hgood IH]; intros acc.
  - cbn [app fmap list_fmap]. rewrite app_nil_r. symmetry. apply pair_trace_result.
  - cbn [app loadCerts_loop fmap list_fmap].
    unfold x509ParseCertificate, call. rewrite Hraw. cbn [of_lib].
    rewrite bind_ret. rewrite IH. rewrite <- app_assoc. reflexivity.
Qed.

Lemma loadCerts_parsed (raws : list bytes) (certs : list Certificate) :
  raws <> [] -> parsed_as raws certs ->
  loadCerts raws = (CallParseCertificate <$> raws, Ret certs).
Proof.
  intros Hne Hraws. unfold loadCerts.
  rewrite decide_False by (destruct raws; [congruence|discriminate]).
  rewrite <- (app_nil_r raws) at 1.
  rewrite (loadCerts_loop_parsed _ _ _ _ Hraws).
  cbn. rewrite app_nil_r. reflexivity.
Qed.

(** A chain that loads is not empty, and neither is what it loads to. *)
Lemma loadCerts_loop_length (raws : list bytes) (acc certs : list Certificate)
    (t : list Call) :
  loadCerts_loop raws acc = (t, Ret certs) ->
  length certs = (length acc + length raws)%nat.
Proof.
  revert acc t. induction raws as [|raw raws IH]; intros acc t.
  - cbn. intros [= _ <-]. lia.
  - cbn [loadCerts_loop]. unfold x509ParseCertificate, call.
    destruct (x509_ParseCertificate raw) as [e|cert]; cbn [of_lib].
    + rewrite bind_fail. discriminate.
    + rewrite bind_ret. intros Heq.
      destruct (loadCerts_loop raws (acc ++ [cert])) as [t' o] eqn:Hloop.
      cbn [trace result] in Heq. injection Heq as _ ->.
      rewrite (IH _ _ Hloop). rewrite length_app. cbn. lia.
Qed.

Lemma loadCerts_loop_no_panic (raws : list bytes) (acc : list Certificate) :
  result (loadCerts_loop raws acc) <> Panic.
Proof.
  revert acc. induction raws as [|raw raws IH]; intros acc.
  - discriminate.
  - cbn [loadCerts_loop]. unfold x509ParseCertificate, call.
    destruct (x509_ParseCertificate raw) as [e|cert]; cbn [of_lib].
    + rewrite bind_fail. discriminate.
    + rewrite bind_ret. apply IH.
Qed.

(** [loadCerts] ends with a list or an error, never with a panic. *)
Lemma loadCerts_no_panic (raws : list bytes) :
  result (loadCerts raws) <> Panic.
Proof.
  unfold loadCerts. destruct (decide (length raws = 0%nat)); [discriminate|].
  apply loadCerts_loop_no_panic.
Qed.

Lemma loadCerts_nonempty (raws : list bytes) (certs : list Certificate)
    (t : list Call) :
  loadCerts raws = (t, Ret certs) -> certs <> [].
Proof.
  unfold loadCerts. destruct (decide (length raws = 0%nat)) as [|Hne];
    [discriminate|].
  intros Hload. apply loadCerts_loop_length in Hload.
  intros ->. cbn in Hload. lia.
Qed.

(** C7.  [loadCerts] parses the elements of a non-empty chain in order.  If
    all of them parse, it returns the parsed certificates, in order.  If
    one does not, it stops at the first such element: nothing after it is
    parsed, the parser's error is the outcome (CertificateParseError in the
    specification) and no certificate list is returned; in particular for a
    chain whose first certificate parses and whose second one does not. *)
Theorem loadCerts_fail_fast (good : list bytes) (certs : list Certificate) :
  parsed_as good certs ->
  (good <> [] ->
     loadCerts good = (CallParseCertificate <$> good, Ret certs))
  /\ (forall (bad : bytes) (rest : list bytes) (e : libError),
     x509_ParseCertificate bad = inl e ->
     loadCerts (good ++ bad :: rest)
     = (CallParseCertificate <$> (good ++ [bad]), Fail (errLibrary e)))
  /\ (forall (first second : bytes) (rest : list bytes) (e : libError),
     good = [first] ->
     x509_ParseCertificate second = inl e ->
     loadCerts (first :: second :: rest)
     = ([CallParseCertificate first; CallParseCertificate second],
        Fail (errLibrary e))).
Proof.
  intros Hgood.
  assert (Hfail : forall bad rest e,
    x509_ParseCertificate bad = inl e ->
    loadCerts (good ++ bad :: rest)
    = (CallParseCertificate <$> (good ++ [bad]), Fail (errLibrary e))).
  { intros bad rest e Hbad. unfold loadCerts.
    rewrite decide_False by (rewrite length_app; cbn; lia).
    rewrite (loadCerts_loop_parsed _ _ _ _ Hgood).
    cbn [loadCerts_loop]. unfold x509ParseCertificate, call.
    rewrite Hbad. cbn [of_lib]. rewrite bind_fail.
    rewrite fmap_app. reflexivity. }
  split; [|split].
  - intros Hne. apply loadCerts_parsed; assumption.
  - exact Hfail.
  - intros first second rest e -> Hbad.
    apply (Hfail second rest e Hbad).
Qed.

(** *** Validating a chain *)

(** The options the validators hand to the library.  When the chain
    loads, to a leaf followed by intermediates, both
    validators put every certificate after the leaf, and nothing else,
    into a fresh pool, read the clock, and validate the leaf with the
    caller's roots, that pool and the clock reading.  [verifyClientCert]
    asks for the extended key usage "client authentication" and sets no name;
    [verifyServerCert] asks for the name [serverName] and sets no key usage.
    The outcome is the library's.  When the chain does not load, both
    validators fail the way [loadCerts] does. *)
Theorem validators_options (rawCertificates : list bytes) (roots : CertPool)
    (serverName : string) (clock : time_Time) (t : list Call) :
  (forall certs : list Certificate,
     loadCerts rawCertificates = (t, Ret certs) ->
     exists (leaf : Certificate) (intermediates : list Certificate),
       certs = leaf :: intermediates
       /\ (let opts := {| Roots := roots;
                          CurrentTime := clock;
                          DNSName := EmptyString;
                          Intermediates :=
                            fold_left CertPool_AddCert intermediates
                              x509_NewCertPool;
                          KeyUsages := [ExtKeyUsageClientAuth] |} in
           verifyClientCert rawCertificates roots clock
           = (t ++ [CallNow; CallCertificateVerify leaf opts],
              of_lib (Certificate_Verify leaf opts)))
       /\ (let opts := {| Roots := roots;
                          CurrentTime := clock;
                          DNSName := serverName;
                          Intermediates :=
                            fold_left CertPool_AddCert intermediates
                              x509_NewCertPool;
                          KeyUsages := [] |} in
           verifyServerCert rawCertificates roots serverName clock
           = (t ++ [CallNow; CallCertificateVerify leaf opts],
              of_lib (Certificate_Verify leaf opts))))
  /\ (forall e : error,
     loadCerts rawCertificates = (t, Fail e) ->
     verifyClientCert rawCertificates roots clock = (t, Fail e)
     /\ verifyServerCert rawCertificates roots serverName clock = (t, Fail e)).
Proof.
  split.
  - intros certs Hload.
    pose proof (loadCerts_nonempty _ _ _ Hload) as Hne.
    destruct certs as [|leaf intermediates]; [congruence|].
    exists leaf, intermediates. split; [reflexivity|].
    unfold verifyClientCert, verifyServerCert. rewrite Hload.
    rewrite !bind_ret. split; reflexivity.
  - intros e Hload. unfold verifyClientCert, verifyServerCert.
    rewrite Hload. split; reflexivity.
Qed.

(** C9, as amended.  Both validators load the chain, put every certificate
    after the leaf into a fresh pool, and have the library validate the
    leaf against the caller's roots with that pool at the reading of the
    wall clock.  [verifyClientCert] asks for the extended key usage "client
    authentication" and sets no name.  [verifyServerCert] hands
    [serverName] to the library as the name to match, so that an empty
    [serverName] sets no name, as in [verifyClientCert]; it sets no key
    usage, and since the library reads an empty list of key usages as
    "server authentication", its outcome is that of a validation restricted
    to the extended key usage "server authentication".  When the chain does
    not load, both validators fail the way [loadCerts] does. *)
Theorem validators_effective_options (rawCertificates : list bytes)
    (roots : CertPool) (serverName : string) (clock : time_Time)
    (t : list Call) :
  empty_KeyUsages_mean_ServerAuth ->
  (forall certs : list Certificate,
     loadCerts rawCertificates = (t, Ret certs) ->
     exists (leaf : Certificate) (intermediates : list Certificate),
       certs = leaf :: intermediates
       /\ verifyClientCert rawCertificates roots clock
          = (t ++ [CallNow;
                   CallCertificateVerify leaf
                     {| Roots := roots;
                        CurrentTime := clock;
                        DNSName := EmptyString;
                        Intermediates :=
                          fold_left CertPool_AddCert intermediates
                            x509_NewCertPool;
                        KeyUsages := [ExtKeyUsageClientAuth] |}],
             of_lib (Certificate_Verify leaf
                       {| Roots := roots;
                          CurrentTime := clock;
                          DNSName := EmptyString;
                          Intermediates :=
                            fold_left CertPool_AddCert intermediates
                              x509_NewCertPool;
                          KeyUsages := [ExtKeyUsageClientAuth] |}))
       /\ verifyServerCert rawCertificates roots serverName clock
          = (t ++ [CallNow;
                   CallCertificateVerify leaf
                     {| Roots := roots;
                        CurrentTime := clock;
                        DNSName := serverName;
                        Intermediates :=
                          fold_left CertPool_AddCert intermediates
                            x509_NewCertPool;
                        KeyUsages := [] |}],
             of_lib (Certificate_Verify leaf
                       {| Roots := roots;
                          CurrentTime := clock;
                          DNSName := serverName;
                          Intermediates :=
                            fold_left CertPool_AddCert intermediates
                              x509_NewCertPool;
                          KeyUsages := [ExtKeyUsageServerAuth] |}))
       /\ (serverName = EmptyString ->
           result (verifyServerCert rawCertificates roots serverName clock)
           = of_lib (Certificate_Verify leaf
                       {| Roots := roots;
                          CurrentTime := clock;
                          DNSName := EmptyString;
                          Intermediates :=
                            fold_left CertPool_AddCert intermediates
                              x509_NewCertPool;
                          KeyUsages := [ExtKeyUsageServerAuth] |})))
  /\ (forall e : error,
     loadCerts rawCertificates = (t, Fail e) ->
     verifyClientCert rawCertificates roots clock = (t, Fail e)
     /\ verifyServerCert rawCertificates roots serverName clock = (t, Fail e)).
Proof.
  intros Hlaw. split.
  - intros certs Hload.
    pose proof (loadCerts_nonempty _ _ _ Hload) as Hne.
    destruct certs as [|leaf intermediates]; [congruence|].
    exists leaf, intermediates. split; [reflexivity|].
    assert (Hserver :
      verifyServerCert rawCertificates roots serverName clock
      = (t ++ [CallNow;
               CallCertificateVerify leaf
                 {| Roots := roots; CurrentTime := clock;
                    DNSName := serverName;
                    Intermediates :=
                      fold_left CertPool_AddCert intermediates
                        x509_NewCertPool;
                    KeyUsages := [] |}],
         of_lib (Certificate_Verify leaf
                   {| Roots := roots; CurrentTime := clock;
                      DNSName := serverName;
                      Intermediates :=
                        fold_left CertPool_AddCert intermediates
                          x509_NewCertPool;
                      KeyUsages := [ExtKeyUsageServerAuth] |}))).
    { unfold verifyServerCert. rewrite Hload. rewrite !bind_ret.
      pose proof (Hlaw leaf
                    {| Roots := roots; CurrentTime := clock;
                       DNSName := serverName;
                       Intermediates :=
                         fold_left CertPool_AddCert intermediates
                           x509_NewCertPool;
                       KeyUsages := [] |} eq_refl) as Hl.
      cbn [DNSName Intermediates Roots CurrentTime] in Hl.
      rewrite <- Hl.
      reflexivity. }
    split; [|split].
    + unfold verifyClientCert. rewrite Hload. rewrite !bind_ret. reflexivity.
    + exact Hserver.
    + intros ->. rewrite Hserver. reflexivity.
  - intros e Hload. unfold verifyClientCert, verifyServerCert.
    rewrite Hload. split; reflexivity.
Qed.

End Proofs.

(** * Further properties *)

(** ** The key-exchange message is unambiguous for fixed-length randoms *)

Lemma uint16_bytes_inj (c c' : Z) :
  0 <= c < 2 ^ 16 -> 0 <= c' < 2 ^ 16 ->
  uint8 (Z.shiftr (uint16 c) 8) = uint8 (Z.shiftr (uint16 c') 8) ->
  uint8 (uint16 c) = uint8 (uint16 c') ->
  c = c'.
Proof.
  intros Hc Hc' Hhi Hlo.
  assert (Heq : be_value [uint8 (Z.shiftr (uint16 c) 8); uint8 (uint16 c)]
              = be_value [uint8 (Z.shiftr (uint16 c') 8); uint8 (uint16 c')])
    by (rewrite Hhi, Hlo; reflexivity).
  rewrite !be_value_2 in Heq. unfold uint16 in Heq.
  rewrite !Z.mod_mod in Heq by lia.
  rewrite !Z.mod_small in Heq by assumption. exact Heq.
Qed.

(** Two calls whose random values have the same lengths and that return
    the same message were given the same random values, the same public
    key and the same curve: the signed bytes determine what was signed. *)
Theorem valueKeyMessage_injective
    (clientRandom serverRandom publicKey : bytes) (namedCurve : Z)
    (clientRandom' serverRandom' publicKey' : bytes) (namedCurve' : Z) :
  length clientRandom = length clientRandom' ->
  length serverRandom = length serverRandom' ->
  0 <= namedCurve < 2 ^ 16 ->
  0 <= namedCurve' < 2 ^ 16 ->
  valueKeyMessage clientRandom serverRandom publicKey namedCurve
    = valueKeyMessage clientRandom' serverRandom' publicKey' namedCurve' ->
  clientRandom = clientRandom' /\ serverRandom = serverRandom'
  /\ publicKey = publicKey' /\ namedCurve = namedCurve'.
Proof.
  intros Hcr Hsr Hc Hc' Heq.
  rewrite !valueKeyMessage_eq in Heq. injection Heq as Heq.
  apply app_inj_1 in Heq as [-> Heq]; [|exact Hcr].
  apply app_inj_1 in Heq as [-> Heq]; [|exact Hsr].
  unfold curveParams in Heq. cbn [app] in Heq.
  injection Heq as Hhi Hlo _ Hpk.
  repeat split; try assumption.
  apply uint16_bytes_inj; assumption.
Qed.

(** The message does not say where the client's random value ends and the
    server's begins: moving bytes from one to the other leaves the message
    unchanged.  The hypothesis on the lengths above cannot be dropped. *)
Theorem valueKeyMessage_randoms_concatenated
    (clientRandom serverRandom clientRandom' serverRandom' publicKey : bytes)
    (namedCurve : Z) :
  clientRandom ++ serverRandom = clientRandom' ++ serverRandom' ->
  valueKeyMessage clientRandom serverRandom publicKey namedCurve
    = valueKeyMessage clientRandom' serverRandom' publicKey namedCurve.
Proof.
  intros Heq. rewrite !valueKeyMessage_eq.
  rewrite !(app_assoc clientRandom), !(app_assoc clientRandom'), Heq.
  reflexivity.
Qed.

(** ** What the additional data tells apart *)

Lemma uint8_shiftr_mod (v k n : Z) :
  0 <= k -> k + 8 <= n ->
  uint8 (Z.shiftr (v mod 2 ^ n) k) = uint8 (Z.shiftr v k).
Proof.
  intros Hk Hn. unfold uint8. apply Z.bits_inj'. intros i Hi.
  destruct (Z.ltb_spec i 8).
  - rewrite !Z.mod_pow2_bits_low by lia. rewrite !Z.shiftr_spec by lia.
    apply Z.mod_pow2_bits_low. lia.
  - rewrite !Z.mod_pow2_bits_high by lia. reflexivity.
Qed.

Lemma uint8_mod (v n : Z) : 8 <= n -> uint8 (v mod 2 ^ n) = uint8 v.
Proof.
  intros Hn. rewrite <- (Z.shiftr_0_r (v mod 2 ^ n)), <- (Z.shiftr_0_r v) at 1.
  apply uint8_shiftr_mod; lia.
Qed.

(** The output written with the truncated sequence number and length. *)
Lemma generateAEADAdditionalData_mod (h : recordLayerHeader) (payloadLen : Z) :
  generateAEADAdditionalData h payloadLen
  = Some [uint8 (Z.shiftr (epoch h) 8); uint8 (epoch h);
          uint8 (Z.shiftr (sequenceNumber h mod 2 ^ 48) 40);
          uint8 (Z.shiftr (sequenceNumber h mod 2 ^ 48) 32);
          uint8 (Z.shiftr (sequenceNumber h mod 2 ^ 48) 24);
          uint8 (Z.shiftr (sequenceNumber h mod 2 ^ 48) 16);
          uint8 (Z.shiftr (sequenceNumber h mod 2 ^ 48) 8);
          uint8 (sequenceNumber h mod 2 ^ 48);
          uint8 (contentType h);
          major (protocolVersion_ h);
          minor (protocolVersion_ h);
          uint8 (Z.shiftr (payloadLen mod 2 ^ 16) 8);
          uint8 (payloadLen mod 2 ^ 16)].
Proof.
  rewrite generateAEADAdditionalData_eq. unfold uint16.
  rewrite !uint8_shiftr_mod by lia. rewrite !uint8_mod by lia.
  reflexivity.
Qed.

(** Two records that differ only in the bits of the sequence number above
    bit 47, or in the bits of the payload length above bit 15, get the same
    additional data. *)
Theorem generateAEADAdditionalData_collides (h h' : recordLayerHeader)
    (payloadLen payloadLen' : Z) :
  contentType h = contentType h' ->
  protocolVersion_ h = protocolVersion_ h' ->
  epoch h = epoch h' ->
  sequenceNumber h mod 2 ^ 48 = sequenceNumber h' mod 2 ^ 48 ->
  payloadLen mod 2 ^ 16 = payloadLen' mod 2 ^ 16 ->
  generateAEADAdditionalData h payloadLen
    = generateAEADAdditionalData h' payloadLen'.
Proof.
  intros Hct Hpv Hep Hseq Hlen.
  rewrite !generateAEADAdditionalData_mod.
  rewrite Hct, Hpv, Hep, Hseq, Hlen. reflexivity.
Qed.

(** For headers whose fields are in range, with sequence numbers below
    2^48 and payload lengths below 2^16, equal additional data means equal
    headers and equal payload lengths. *)
Theorem generateAEADAdditionalData_injective (h h' : recordLayerHeader)
    (payloadLen payloadLen' : Z) :
  header_wf h -> header_wf h' ->
  sequenceNumber h < 2 ^ 48 -> sequenceNumber h' < 2 ^ 48 ->
  0 <= payloadLen < 2 ^ 16 -> 0 <= payloadLen' < 2 ^ 16 ->
  generateAEADAdditionalData h payloadLen
    = generateAEADAdditionalData h' payloadLen' ->
  h = h' /\ payloadLen = payloadLen'.
Proof.
  intros [Hct Hmaj Hmin Hep Hseq] [Hct' Hmaj' Hmin' Hep' Hseq'] Hs Hs' Hl Hl' Heq.
  rewrite !generateAEADAdditionalData_eq in Heq.
  injection Heq as E0 E1 S0 S1 S2 S3 S4 S5 C V0 V1 L0 L1.
  assert (He : epoch h = epoch h').
  { assert (Hv : be_value [uint8 (Z.shiftr (epoch h) 8); uint8 (epoch h)]
               = be_value [uint8 (Z.shiftr (epoch h') 8); uint8 (epoch h')])
      by (rewrite E0, E1; reflexivity).
    rewrite !be_value_2 in Hv. rewrite !Z.mod_small in Hv by assumption.
    exact Hv. }
  assert (Hq : sequenceNumber h = sequenceNumber h').
  { pose proof (be_value_6 (sequenceNumber h)) as Hv.
    rewrite S0, S1, S2, S3, S4, S5 in Hv. rewrite be_value_6 in Hv.
    rewrite !Z.mod_small in Hv by lia. symmetry. exact Hv. }
  assert (Hc : contentType h = contentType h').
  { rewrite !uint8_id in C by assumption. exact C. }
  assert (Hp : payloadLen = payloadLen').
  { apply uint16_bytes_inj; assumption. }
  split; [|exact Hp].
  destruct h as [ct [ma mi] ep sq], h' as [ct' [ma' mi'] ep' sq'].
  cbn in *. congruence.
Qed.

(** ** Verifying, signing and loading, end to end *)

Section Composition.
Context `{Primitives}.

(** Only the leaf is looked at: the certificates after it are neither
    parsed nor otherwise used by the verifiers. *)
Theorem verifiers_read_only_the_leaf (message sig : bytes) (h : hashAlgorithm)
    (leaf : bytes) (rest : list bytes) :
  verifyKeySignature message sig h (leaf :: rest)
    = verifyKeySignature message sig h [leaf]
  /\ verifyCertificateVerify message h sig (leaf :: rest)
    = verifyCertificateVerify message h sig [leaf].
Proof. split; reflexivity. Qed.

Lemma verify_with_accepts (cert : Certificate) (message sig : bytes)
    (h : hashAlgorithm) :
  result (verify_with cert message sig h) = Ret tt
  <-> accepted_by cert message sig h.
Proof.
  unfold verify_with, accepted_by, pkcs1v15_sha.
  destruct (Certificate_PublicKey cert) as [p|p|p|].
  - destruct (ed25519_Verify p message sig); cbn; split; congruence.
  - destruct (asn1_Unmarshal sig) as [e|[tl rs]].
    + cbn. split; [discriminate|]. intros (tl & rs & Hsig & _). discriminate.
    + destruct (Z.leb_spec (sig_R rs) 0) as [HR|HR];
        [|destruct (Z.leb_spec (sig_S rs) 0) as [HS|HS]]; cbn [orb].
      * cbn. split; [discriminate|].
        intros (tl' & rs' & [= <- <-] & HR' & _). lia.
      * cbn. split; [discriminate|].
        intros (tl' & rs' & [= <- <-] & _ & HS' & _). lia.
      * cbn [result snd].
        destruct (ecdsa_Verify p (hashAlgorithm_digest h message)
                    (sig_R rs) (sig_S rs)) eqn:Hv.
        -- split; [|reflexivity]. intros _. exists tl, rs. auto.
        -- split; [discriminate|].
           intros (tl' & rs' & [= <- <-] & _ & _ & Hv'). congruence.
  - destruct (Certificate_SignatureAlgorithm cert); cbn [result snd];
      try (split; [discriminate
                  | intros [[Ha|[Ha|[Ha|Ha]]] _]; discriminate Ha]);
      destruct (rsa_VerifyPKCS1v15 p (hashAlgorithm_cryptoHash h)
                  (hashAlgorithm_digest h message) sig) eqn:Hv;
      (split;
       [ intros Hr; first [discriminate Hr | split; [tauto|reflexivity]]
       | intros [_ Hv']; first [discriminate Hv' | reflexivity] ]).
  - cbn. split; [discriminate|tauto].
Qed.

(** The verifiers accept exactly when the chain is not empty, its leaf
    parses, and the library's verification for the leaf's key family says
    yes: an Ed25519 check of the raw message; for elliptic-curve DSA a
    signature that decodes to two positive numbers and verifies against the
    digest; for RSA a leaf with a PKCS#1 v1.5 SHA algorithm and a PKCS#1
    v1.5 check of the digest without error.  In no other case is the
    outcome a success. *)
Lemma verifyKeySignature_Ret (message sig : bytes)
    (h : hashAlgorithm) (rawCertificates : list bytes) :
  result (verifyKeySignature message sig h rawCertificates) = Ret tt
  <-> exists (leaf : bytes) (rest : list bytes) (cert : Certificate),
        rawCertificates = leaf :: rest
        /\ x509_ParseCertificate leaf = inr cert
        /\ accepted_by cert message sig h.
Proof.
  destruct rawCertificates as [|leaf rest].
  - split; [discriminate|]. intros (l & r & c & Hnil & _). discriminate.
  - destruct (x509_ParseCertificate leaf) as [e|cert] eqn:Hparse.
    + rewrite (verifyKeySignature_unparsed _ _ _ _ _ _ Hparse).
      split; [discriminate|].
      intros (l & r & c & [= <- <-] & Hp & _). congruence.
    + rewrite (verifyKeySignature_parsed _ _ _ _ _ _ Hparse).
      cbn [result snd]. rewrite verify_with_accepts. split.
      * intros Hacc. exists leaf, rest, cert. auto.
      * intros (l & r & c & [= <- <-] & Hp & Hacc).
        rewrite Hparse in Hp. injection Hp as <-. exact Hacc.
Qed.

Theorem verifiers_accept_iff (message sig : bytes)
    (h : hashAlgorithm) (rawCertificates : list bytes) :
  (result (verifyKeySignature message sig h rawCertificates) = Ret tt
   <-> exists (leaf : bytes) (rest : list bytes) (cert : Certificate),
         rawCertificates = leaf :: rest
         /\ x509_ParseCertificate leaf = inr cert
         /\ accepted_by cert message sig h)
  /\ (result (verifyCertificateVerify message h sig rawCertificates) = Ret tt
   <-> exists (leaf : bytes) (rest : list bytes) (cert : Certificate),
         rawCertificates = leaf :: rest
         /\ x509_ParseCertificate leaf = inr cert
         /\ accepted_by cert message sig h).
Proof.
  rewrite verifyCertificateVerify_verifyKeySignature.
  split; apply verifyKeySignature_Ret.
Qed.

(** With an RSA leaf key the verifiers never answer
    [errKeySignatureMismatch]: when the PKCS#1 v1.5 check fails, the error
    of [rsa.VerifyPKCS1v15] itself is returned. *)
Theorem rsa_failure_is_the_library_error (message sig : bytes)
    (h : hashAlgorithm) (leaf : bytes) (rest : list bytes)
    (cert : Certificate) (p : rsa_PublicKey) :
  x509_ParseCertificate leaf = inr cert ->
  Certificate_PublicKey cert = PubRSA p ->
  result (verifyKeySignature message sig h (leaf :: rest))
    <> Fail errKeySignatureMismatch
  /\ (forall e : libError,
        pkcs1v15_sha (Certificate_SignatureAlgorithm cert) ->
        rsa_VerifyPKCS1v15 p (hashAlgorithm_cryptoHash h)
          (hashAlgorithm_digest h message) sig = Some e ->
        result (verifyKeySignature message sig h (leaf :: rest))
          = Fail (errLibrary e)
        /\ result (verifyCertificateVerify message h sig (leaf :: rest))
          = Fail (errLibrary e)).
Proof.
  intros Hparse Hkey.
  rewrite verifyCertificateVerify_verifyKeySignature.
  rewrite (verifyKeySignature_parsed _ _ _ _ _ _ Hparse).
  unfold verify_with, pkcs1v15_sha. rewrite Hkey. cbn [result snd]. split.
  - destruct (Certificate_SignatureAlgorithm cert); cbn; try discriminate;
      destruct (rsa_VerifyPKCS1v15 p (hashAlgorithm_cryptoHash h)
                  (hashAlgorithm_digest h message) sig); discriminate.
  - intros e [Ha|[Ha|[Ha|Ha]]] Hv; rewrite Ha; cbn; rewrite Hv;
      split; reflexivity.
Qed.

(** *** Signing, then verifying *)

Lemma generateKeySignature_eq (clientRandom serverRandom publicKey : bytes)
    (namedCurve : Z) (privateKey : crypto_PrivateKey) (h : hashAlgorithm)
    (rnd : Rand) :
  let msg := clientRandom ++ serverRandom
             ++ curveParams namedCurve publicKey ++ publicKey in
  result (generateKeySignature clientRandom serverRandom publicKey namedCurve
            privateKey h rnd)
  = match privateKey with
    | PrivEd25519 p => of_lib (ed25519_Sign p rnd msg 0)
    | PrivECDSA p =>
        of_lib (ecdsa_Sign p rnd (hashAlgorithm_digest h msg)
                  (hashAlgorithm_cryptoHash h))
    | PrivRSA p =>
        of_lib (rsa_Sign p rnd (hashAlgorithm_digest h msg)
                  (hashAlgorithm_cryptoHash h))
    | PrivOther => Fail errKeySignatureGenerateUnimplemented
    end.
Proof.
  intros msg. unfold generateKeySignature. rewrite valueKeyMessage_eq.
  destruct privateKey; reflexivity.
Qed.

Lemma of_lib_Ret {A} (r : libError + A) (a : A) :
  of_lib r = Ret a -> r = inr a.
Proof. destruct r; cbn; congruence. Qed.

(** A key-exchange signature made by [generateKeySignature] is accepted by
    [verifyKeySignature] for the canonical message of the same values and
    the same negotiated hash, when the leaf certificate holds the matching
    public key. *)
Theorem key_signature_round_trip
    (clientRandom serverRandom publicKey : bytes) (namedCurve : Z)
    (privateKey : crypto_PrivateKey) (h : hashAlgorithm) (rnd : Rand)
    (sig leaf : bytes) (rest : list bytes) (cert : Certificate) :
  x509_ParseCertificate leaf = inr cert ->
  matching_keys privateKey cert ->
  result (generateKeySignature clientRandom serverRandom publicKey namedCurve
            privateKey h rnd) = Ret sig ->
  exists msg : bytes,
    valueKeyMessage clientRandom serverRandom publicKey namedCurve = Some msg
    /\ result (verifyKeySignature msg sig h (leaf :: rest)) = Ret tt.
Proof.
  intros Hparse Hkeys Hsig. eexists. split; [apply valueKeyMessage_eq|].
  rewrite generateKeySignature_eq in Hsig.
  rewrite (verifyKeySignature_parsed _ _ _ _ _ _ Hparse). cbn [result snd].
  apply verify_with_accepts.
  unfold matching_keys in Hkeys. unfold accepted_by.
  destruct privateKey as [sk|sk|sk|];
    destruct (Certificate_PublicKey cert) as [pk|pk|pk|]; try contradiction;
    apply of_lib_Ret in Hsig.
  - exact (Hkeys _ _ _ _ Hsig).
  - exact (Hkeys _ _ _ _ Hsig).
  - destruct Hkeys as [Halg Hkeys]. split; [exact Halg|].
    exact (Hkeys _ _ _ _ Hsig).
Qed.

(** A certificate-verify signature made with an elliptic-curve DSA or RSA
    key is accepted by [verifyCertificateVerify] when the negotiated hash
    digests the transcript as SHA-256 does.  (The signer always digests
    with SHA-256, the verifier with the negotiated hash.) *)
Theorem certificate_verify_round_trip (handshakeBodies : bytes)
    (privateKey : crypto_PrivateKey) (h : hashAlgorithm) (rnd : Rand)
    (sig leaf : bytes) (rest : list bytes) (cert : Certificate) :
  x509_ParseCertificate leaf = inr cert ->
  matching_keys privateKey cert ->
  (forall sk, privateKey <> PrivEd25519 sk) ->
  hashAlgorithm_digest h handshakeBodies = sha256_Sum handshakeBodies ->
  result (generateCertificateVerify handshakeBodies privateKey h rnd)
    = Ret sig ->
  result (verifyCertificateVerify handshakeBodies h sig (leaf :: rest))
    = Ret tt.
Proof.
  intros Hparse Hkeys Hned Hdigest Hsig.
  rewrite generateCertificateVerify_eq in Hsig.
  rewrite verifyCertificateVerify_verifyKeySignature.
  rewrite (verifyKeySignature_parsed _ _ _ _ _ _ Hparse). cbn [result snd].
  apply verify_with_accepts.
  unfold matching_keys in Hkeys. unfold accepted_by. rewrite Hdigest.
  destruct privateKey as [sk|sk|sk|];
    destruct (Certificate_PublicKey cert) as [pk|pk|pk|]; try contradiction;
    cbn [result snd] in Hsig; apply of_lib_Ret in Hsig.
  - exfalso. exact (Hned sk eq_refl).
  - exact (Hkeys _ _ _ _ Hsig).
  - destruct Hkeys as [Halg Hkeys]. split; [exact Halg|].
    exact (Hkeys _ _ _ _ Hsig).
Qed.

(** *** Loading *)

Lemma loadCerts_loop_inv (raws : list bytes) (acc certs : list Certificate)
    (t : list Call) :
  loadCerts_loop raws acc = (t, Ret certs) ->
  exists new : list Certificate,
    certs = acc ++ new /\ parsed_as raws new
    /\ t = CallParseCertificate <$> raws.
Proof.
  revert acc t. induction raws as [|raw raws IH]; intros acc t.
  - cbn. intros [= <- <-]. exists []. rewrite app_nil_r.
    repeat split. constructor.
  - cbn [loadCerts_loop]. unfold x509ParseCertificate, call.
    destruct (x509_ParseCertificate raw) as [e|cert] eqn:Hraw; cbn [of_lib].
    + rewrite bind_fail. discriminate.
    + rewrite bind_ret. intros Heq.
      destruct (loadCerts_loop raws (acc ++ [cert])) as [t' o] eqn:Hloop.
      cbn [trace result fst snd] in Heq. injection Heq as <- ->.
      destruct (IH _ _ Hloop) as (new & -> & Hnew & ->).
      exists (cert :: new). rewrite <- app_assoc.
      repeat split. constructor; assumption.
Qed.

Lemma loadCerts_inv (rawCertificates : list bytes)
    (certs : list Certificate) (t : list Call) :
  loadCerts rawCertificates = (t, Ret certs) ->
  rawCertificates <> []
  /\ parsed_as rawCertificates certs
  /\ t = CallParseCertificate <$> rawCertificates.
Proof.
  unfold loadCerts.
  destruct (decide (length rawCertificates = 0%nat)) as [|Hne]; [discriminate|].
  intros Hload.
  destruct (loadCerts_loop_inv _ _ _ _ Hload) as (new & -> & Hnew & ->).
  cbn [app]. repeat split.
  - intros ->. apply Hne. reflexivity.
  - exact Hnew.
Qed.

(** If [loadCerts] returns certificates, the chain was not empty, every
    element of it was parsed, and the result has one certificate per
    element, in the order of the chain. *)
Theorem loadCerts_returns_the_parsed_chain (rawCertificates : list bytes)
    (certs : list Certificate) (t : list Call) :
  loadCerts rawCertificates = (t, Ret certs) ->
  rawCertificates <> []
  /\ parsed_as rawCertificates certs
  /\ length certs = length rawCertificates
  /\ t = CallParseCertificate <$> rawCertificates.
Proof.
  intros Hload. destruct (loadCerts_inv _ _ _ Hload) as (Hne & Hp & Ht).
  repeat split; try assumption.
  symmetry. eapply Forall2_length. exact Hp.
Qed.

(** The validators return certification paths only if every element of
    the chain parsed and the library validated the leaf, with the caller's
    roots, the pool of the certificates after the leaf and the clock
    reading, and with the client-authentication key usage
    ([verifyClientCert]) or the server name ([verifyServerCert]); the paths
    returned are the library's. *)
Theorem validators_accept_only_validated (rawCertificates : list bytes)
    (roots : CertPool) (serverName : string) (clock : time_Time)
    (chains : list (list Certificate)) :
  (result (verifyClientCert rawCertificates roots clock) = Ret chains ->
   exists (leaf : Certificate) (intermediates : list Certificate),
     parsed_as rawCertificates (leaf :: intermediates)
     /\ Certificate_Verify leaf
          {| Roots := roots; CurrentTime := clock; DNSName := EmptyString;
             Intermediates := fold_left CertPool_AddCert intermediates
                                x509_NewCertPool;
             KeyUsages := [ExtKeyUsageClientAuth] |} = inr chains)
  /\ (result (verifyServerCert rawCertificates roots serverName clock)
       = Ret chains ->
   exists (leaf : Certificate) (intermediates : list Certificate),
     parsed_as rawCertificates (leaf :: intermediates)
     /\ Certificate_Verify leaf
          {| Roots := roots; CurrentTime := clock; DNSName := serverName;
             Intermediates := fold_left CertPool_AddCert intermediates
                                x509_NewCertPool;
             KeyUsages := [] |} = inr chains).
Proof.
  unfold verifyClientCert, verifyServerCert.
  destruct (loadCerts rawCertificates) as [t [certs|e|]] eqn:Hload;
    [|split; discriminate|split; discriminate].
  destruct (loadCerts_inv _ _ _ Hload) as (_ & Hp & _).
  pose proof (loadCerts_nonempty _ _ _ Hload) as Hne.
  destruct certs as [|leaf ints]; [congruence|].
  rewrite !bind_ret.
  split; cbn [result snd]; intros Hv; apply of_lib_Ret in Hv;
    exists leaf, ints; split; assumption.
Qed.

Lemma loadCerts_stops (good : list bytes) (certs : list Certificate)
    (bad : bytes) (rest : list bytes) (e : libError) :
  parsed_as good certs ->
  x509_ParseCertificate bad = inl e ->
  loadCerts (good ++ bad :: rest)
  = (CallParseCertificate <$> (good ++ [bad]), Fail (errLibrary e)).
Proof.
  intros Hgood Hbad. unfold loadCerts.
  rewrite decide_False by (rewrite length_app; cbn; lia).
  rewrite (loadCerts_loop_parsed _ _ _ _ Hgood).
  cbn [loadCerts_loop]. unfold x509ParseCertificate, call.
  rewrite Hbad. cbn [of_lib]. rewrite bind_fail.
  rewrite fmap_app. reflexivity.
Qed.

(** The validators parse the whole chain before anything else: a
    certificate that does not parse, at any position, makes them fail with
    the parser's error, and neither the clock is read nor the leaf
    validated. *)
Theorem validators_stop_at_unparseable (good : list bytes)
    (certs : list Certificate) (bad : bytes) (rest : list bytes)
    (e : libError) (roots : CertPool) (serverName : string)
    (clock : time_Time) :
  parsed_as good certs ->
  x509_ParseCertificate bad = inl e ->
  verifyClientCert (good ++ bad :: rest) roots clock
    = (CallParseCertificate <$> (good ++ [bad]), Fail (errLibrary e))
  /\ verifyServerCert (good ++ bad :: rest) roots serverName clock
    = (CallParseCertificate <$> (good ++ [bad]), Fail (errLibrary e)).
Proof.
  intros Hgood Hbad. unfold verifyClientCert, verifyServerCert.
  rewrite (loadCerts_stops _ _ _ _ _ Hgood Hbad). split; reflexivity.
Qed.

(** *** The rejections of the verifiers *)

(** How the verifiers reject, besides the cases of an empty chain, of a
    non-positive elliptic-curve DSA pair and of an unsupported key: a leaf
    that does not parse gives the parser's error and nothing else is
    called; an Ed25519 check that says no gives [errKeySignatureMismatch];
    an elliptic-curve DSA signature that does not decode gives the
    decoder's error before any digest or check; one that decodes to a
    positive pair and does not verify gives [errKeySignatureMismatch].  The
    two verifiers agree. *)
Theorem verifiers_reject (message sig : bytes) (h : hashAlgorithm)
    (leaf : bytes) (rest : list bytes) :
  verifyCertificateVerify message h sig (leaf :: rest)
    = verifyKeySignature message sig h (leaf :: rest)
  /\ (forall e : libError,
        x509_ParseCertificate leaf = inl e ->
        verifyKeySignature message sig h (leaf :: rest)
        = ([CallParseCertificate leaf], Fail (errLibrary e)))
  /\ (forall cert p,
        x509_ParseCertificate leaf = inr cert ->
        Certificate_PublicKey cert = PubEd25519 p ->
        ed25519_Verify p message sig = false ->
        verifyKeySignature message sig h (leaf :: rest)
        = ([CallParseCertificate leaf; CallEd25519Verify p message sig],
           Fail errKeySignatureMismatch))
  /\ (forall cert p e,
        x509_ParseCertificate leaf = inr cert ->
        Certificate_PublicKey cert = PubECDSA p ->
        asn1_Unmarshal sig = inl e ->
        verifyKeySignature message sig h (leaf :: rest)
        = ([CallParseCertificate leaf; CallUnmarshal sig],
           Fail (errLibrary e)))
  /\ (forall cert p tl rs,
        x509_ParseCertificate leaf = inr cert ->
        Certificate_PublicKey cert = PubECDSA p ->
        asn1_Unmarshal sig = inr (tl, rs) ->
        0 < sig_R rs -> 0 < sig_S rs ->
        ecdsa_Verify p (hashAlgorithm_digest h message)
          (sig_R rs) (sig_S rs) = false ->
        verifyKeySignature message sig h (leaf :: rest)
        = ([CallParseCertificate leaf; CallUnmarshal sig;
            CallDigest h message;
            CallECDSAVerify p (hashAlgorithm_digest h message)
              (sig_R rs) (sig_S rs)],
           Fail errKeySignatureMismatch)).
Proof.
  split; [reflexivity|]. split; [|split; [|split]].
  - intros e Hparse. apply verifyKeySignature_unparsed. exact Hparse.
  - intros cert p Hparse Hkey Hv.
    rewrite (verifyKeySignature_parsed _ _ _ _ _ _ Hparse).
    unfold verify_with. rewrite Hkey, Hv. reflexivity.
  - intros cert p e Hparse Hkey Hsig.
    rewrite (verifyKeySignature_parsed _ _ _ _ _ _ Hparse).
    unfold verify_with. rewrite Hkey, Hsig. reflexivity.
  - intros cert p tl rs Hparse Hkey Hsig HR HS Hv.
    rewrite (verifyKeySignature_parsed _ _ _ _ _ _ Hparse).
    unfold verify_with. rewrite Hkey, Hsig.
    replace ((sig_R rs <=? 0) || (sig_S rs <=? 0)) with false.
    + rewrite Hv. reflexivity.
    + symmetry. apply orb_false_iff. split; apply Z.leb_gt; assumption.
Qed.

(** *** Bounds *)

Lemma verifyKeySignature_no_panic (message sig : bytes) (h : hashAlgorithm)
    (rawCertificates : list bytes) :
  result (verifyKeySignature message sig h rawCertificates) <> Panic.
Proof.
  destruct rawCertificates as [|leaf rest]; [discriminate|].
  destruct (x509_ParseCertificate leaf) as [e|cert] eqn:Hparse.
  - rewrite (verifyKeySignature_unparsed _ _ _ _ _ _ Hparse). discriminate.
  - rewrite (verifyKeySignature_parsed _ _ _ _ _ _ Hparse).
    cbn [result snd]. unfold verify_with.
    destruct (Certificate_PublicKey cert) as [p|p|p|].
    + destruct (ed25519_Verify p message sig); discriminate.
    + destruct (asn1_Unmarshal sig) as [e|[tl rs]]; [discriminate|].
      destruct ((sig_R rs <=? 0) || (sig_S rs <=? 0)); [discriminate|].
      cbn. destruct (ecdsa_Verify _ _ _ _); discriminate.
    + destruct (Certificate_SignatureAlgorithm cert); cbn; try discriminate;
        destruct (rsa_VerifyPKCS1v15 _ _ _ _); discriminate.
    + discriminate.
Qed.

Lemma of_lib_no_panic {A} (r : libError + A) : of_lib r <> Panic.
Proof. destruct r; discriminate. Qed.

(** Every index, slice and store expression of the file is within bounds,
    whatever the arguments: the stores of [valueKeyMessage] into its 4-byte
    buffer and of [generateAEADAdditionalData] into its 13-byte array never
    fail, and [rawCertificates[0]], [certificate[0]] and [certificate[1:]]
    are reached only behind the length checks, so that no signer, verifier,
    loader or validator ends in the panic of such an expression.  (A nil
    header pointer and panics inside the libraries are not part of the
    model.) *)
Theorem index_expressions_in_range (a b c message sig : bytes) (n payloadLen : Z)
    (hdr : recordLayerHeader) (privateKey : crypto_PrivateKey)
    (h : hashAlgorithm) (rnd : Rand) (rawCertificates : list bytes)
    (roots : CertPool) (serverName : string) (clock : time_Time) :
  valueKeyMessage a b c n <> None
  /\ generateAEADAdditionalData hdr payloadLen <> None
  /\ result (generateKeySignature a b c n privateKey h rnd) <> Panic
  /\ result (generateCertificateVerify message privateKey h rnd) <> Panic
  /\ result (verifyKeySignature message sig h rawCertificates) <> Panic
  /\ result (verifyCertificateVerify message h sig rawCertificates) <> Panic
  /\ result (loadCerts rawCertificates) <> Panic
  /\ result (verifyClientCert rawCertificates roots clock) <> Panic
  /\ result (verifyServerCert rawCertificates roots serverName clock) <> Panic.
Proof.
  split; [rewrite valueKeyMessage_eq; discriminate|].
  split; [rewrite generateAEADAdditionalData_eq; discriminate|].
  split.
  { rewrite generateKeySignature_eq.
    destruct privateKey; first [apply of_lib_no_panic | discriminate]. }
  split.
  { rewrite generateCertificateVerify_eq.
    destruct privateKey; cbn [result snd];
      first [apply of_lib_no_panic | discriminate]. }
  split; [apply verifyKeySignature_no_panic|].
  split; [rewrite verifyCertificateVerify_verifyKeySignature;
          apply verifyKeySignature_no_panic|].
  split; [apply loadCerts_no_panic|].
  pose proof (loadCerts_no_panic rawCertificates) as Hnp.
  unfold verifyClientCert, verifyServerCert.
  destruct (loadCerts rawCertificates) as [t [certs|e|]] eqn:Hload.
  - pose proof (loadCerts_nonempty _ _ _ Hload) as Hne.
    destruct certs as [|leaf ints]; [congruence|].
    rewrite !bind_ret. split; cbn; apply of_lib_no_panic.
  - split; discriminate.
  - exfalso. apply Hnp. reflexivity.
Qed.

End Composition.

(** ** The theorems at concrete inputs *)

#[local] Existing Instances Toy.handles Toy.primitives.

Lemma generateAEADAdditionalData_layout_witness :
  exists out : bytes,
    generateAEADAdditionalData
      {| contentType := 23;
         protocolVersion_ := {| major := 254; minor := 253 |};
         epoch := 258; sequenceNumber := 2 ^ 48 + 5 |} 65552 = Some out
    /\ be_value (take 2 out) = 258
    /\ be_value (take 6 (drop 2 out)) = 5
    /\ be_value (drop 11 out) = 16.
Proof.
  destruct (generateAEADAdditionalData_layout
              {| contentType := 23;
                 protocolVersion_ := {| major := 254; minor := 253 |};
                 epoch := 258; sequenceNumber := 2 ^ 48 + 5 |} 65552)
    as [[out (Hout & _ & _ & Hep & Hseq & _ & _ & _ & Hlen)] _].
  - constructor; cbn; lia.
  - exists out. repeat split; assumption.
Defined.

Lemma valueKeyMessage_layout_witness :
  exists params : bytes,
    valueKeyMessage [1] [2] [9; 9; 9] 29 = Some ([1] ++ [2] ++ params ++ [9; 9; 9])
    /\ be_value (take 2 (drop 1 params)) = 29
    /\ params !! 3%nat = Some 3.
Proof.
  destruct (valueKeyMessage_layout [1] [2] [9; 9; 9] 29)
    as (params & Hout & _ & _ & _ & Hcurve & _ & Hlen).
  - lia.
  - exists params. repeat split; [exact Hout|exact Hcurve|].
    apply Hlen. cbn. lia.
Defined.

Lemma valueKeyMessage_long_key_witness :
  exists out : bytes,
    valueKeyMessage [1] [2] (replicate 256 7) 29 = Some out
    /\ out !! 5%nat = Some 0
    /\ drop 6 out = replicate 256 7.
Proof.
  destruct (valueKeyMessage_long_key [1] [2] (replicate 256 7) 29)
    as (out & Hout & Hbyte & Hkey & _).
  - rewrite length_replicate. lia.
  - exists out. repeat split; [exact Hout|exact Hbyte|exact Hkey].
Defined.

Lemma ecdsa_nonpositive_signature_rejected_witness :
  verifyKeySignature [1; 2] [0; 5] 4 [[1; 7; 0]]
    = ([CallParseCertificate [1; 7; 0]; CallUnmarshal [0; 5]],
       Fail errInvalidECDSASignature)
  /\ verifyCertificateVerify [1; 2] 4 [0; 5] [[1; 7; 0]]
    = ([CallParseCertificate [1; 7; 0]; CallUnmarshal [0; 5]],
       Fail errInvalidECDSASignature).
Proof.
  apply (@ecdsa_nonpositive_signature_rejected Toy.handles Toy.primitives [1; 2] [0; 5] 4 [1; 7; 0] []
           [1; 7; 0] 7 [] {| sig_R := 0; sig_S := 5 |}).
  - reflexivity.
  - reflexivity.
  - reflexivity.
  - left. cbn. lia.
Defined.

Lemma rsa_requires_pkcs1v15_sha_witness :
  verifyKeySignature [1; 2] (7 :: replicate 32 7) 4 [[2; 7; 4]]
    = ([CallParseCertificate [2; 7; 4]; CallDigest 4 [1; 2];
        CallRSAVerifyPKCS1v15 7 5 (replicate 32 7) (7 :: replicate 32 7)],
       Ret tt)
  /\ verifyKeySignature [1; 2] (7 :: replicate 32 7) 4 [[2; 7; 13]]
    = ([CallParseCertificate [2; 7; 13]],
       Fail errKeySignatureVerifyUnimplemented).
Proof.
  split.
  - destruct (@rsa_requires_pkcs1v15_sha Toy.handles Toy.primitives [1; 2] (7 :: replicate 32 7) 4
                [2; 7; 4] [] [2; 7; 4]) as (_ & Hok & _ & _).
    + reflexivity.
    + apply (Hok 7).
      * reflexivity.
      * right. left. reflexivity.
  - destruct (@rsa_requires_pkcs1v15_sha Toy.handles Toy.primitives [1; 2] (7 :: replicate 32 7) 4
                [2; 7; 13] [] [2; 7; 13]) as (_ & _ & Hno & _).
    + reflexivity.
    + apply (Hno 7).
      * reflexivity.
      * intros [Ha|[Ha|[Ha|Ha]]]; discriminate Ha.
Defined.

Lemma generateCertificateVerify_ed25519_signs_digest_witness :
  trace (generateCertificateVerify [1; 2; 3] (PrivEd25519 7) 4 tt)
    = [CallSHA256 [1; 2; 3]; CallSign (PrivEd25519 7) (replicate 32 6) 0]
  /\ replicate 32 6 <> [1; 2; 3]
  /\ trace (verifyCertificateVerify [1; 2; 3] 4 (7 :: replicate 32 6) [[0; 7; 16]])
    = [CallParseCertificate [0; 7; 16];
       CallEd25519Verify 7 [1; 2; 3] (7 :: replicate 32 6)].
Proof.
  apply (@generateCertificateVerify_ed25519_signs_digest Toy.handles Toy.primitives [1; 2; 3]
           (7 :: replicate 32 6) 4 tt 7 [0; 7; 16] [] [0; 7; 16] 7).
  - cbn. lia.
  - reflexivity.
  - reflexivity.
Defined.

Lemma loadCerts_fail_fast_witness :
  loadCerts [[2; 7; 4]; [9]; [1; 7; 0]]
  = ([CallParseCertificate [2; 7; 4]; CallParseCertificate [9]],
     Fail (errLibrary 1%nat)).
Proof.
  destruct (@loadCerts_fail_fast Toy.handles Toy.primitives [[2; 7; 4]] [[2; 7; 4]]) as (_ & _ & Hsecond).
  - repeat constructor.
  - apply (Hsecond [2; 7; 4] [9] [[1; 7; 0]] 1%nat); reflexivity.
Defined.

Lemma validators_options_witness :
  verifyClientCert [[2; 7; 4]; [1; 7; 0]] [[2; 7; 4]] 1000
    = ([CallParseCertificate [2; 7; 4]; CallParseCertificate [1; 7; 0];
        CallNow;
        CallCertificateVerify [2; 7; 4]
          {| Roots := [[2; 7; 4]]; CurrentTime := 1000;
             DNSName := EmptyString; Intermediates := [[1; 7; 0]];
             KeyUsages := [ExtKeyUsageClientAuth] |}],
       Ret [[[2; 7; 4]]])
  /\ verifyServerCert [[2; 7; 4]; [1; 7; 0]] [[2; 7; 4]] "example.org" 1000
    = ([CallParseCertificate [2; 7; 4]; CallParseCertificate [1; 7; 0];
        CallNow;
        CallCertificateVerify [2; 7; 4]
          {| Roots := [[2; 7; 4]]; CurrentTime := 1000;
             DNSName := "example.org"; Intermediates := [[1; 7; 0]];
             KeyUsages := [] |}],
       Ret [[[2; 7; 4]]]).
Proof.
  destruct (@validators_options Toy.handles Toy.primitives [[2; 7; 4]; [1; 7; 0]] [[2; 7; 4]]
              "example.org" 1000
              [CallParseCertificate [2; 7; 4]; CallParseCertificate [1; 7; 0]])
    as [Hok _].
  destruct (Hok [[2; 7; 4]; [1; 7; 0]]) as (leaf & rest & Hcerts & Hc & Hs).
  - reflexivity.
  - injection Hcerts as <- <-. split; [exact Hc|exact Hs].
Defined.

(** ** The further properties at concrete inputs *)

Lemma valueKeyMessage_injective_witness :
  [1; 2] = [1; 2] /\ [3; 4] = [3; 4] /\ [9; 9; 9] = [9; 9; 9] /\ 29 = 29.
Proof.
  apply (valueKeyMessage_injective [1; 2] [3; 4] [9; 9; 9] 29
           [1; 2] [3; 4] [9; 9; 9] 29).
  - reflexivity.
  - reflexivity.
  - lia.
  - lia.
  - reflexivity.
Defined.

Lemma valueKeyMessage_randoms_concatenated_witness :
  valueKeyMessage [1; 2] [3] [9] 29 = valueKeyMessage [1] [2; 3] [9] 29.
Proof.
  apply (valueKeyMessage_randoms_concatenated [1; 2] [3] [1] [2; 3] [9] 29).
  reflexivity.
Defined.

Lemma generateAEADAdditionalData_collides_witness :
  generateAEADAdditionalData
    {| contentType := 23; protocolVersion_ := {| major := 254; minor := 253 |};
       epoch := 1; sequenceNumber := 5 |} 16
  = generateAEADAdditionalData
      {| contentType := 23; protocolVersion_ := {| major := 254; minor := 253 |};
         epoch := 1; sequenceNumber := 2 ^ 48 + 5 |} 65552.
Proof.
  apply generateAEADAdditionalData_collides; reflexivity.
Defined.

Lemma generateAEADAdditionalData_injective_witness :
  {| contentType := 23; protocolVersion_ := {| major := 254; minor := 253 |};
     epoch := 1; sequenceNumber := 5 |}
  = {| contentType := 23; protocolVersion_ := {| major := 254; minor := 253 |};
       epoch := 1; sequenceNumber := 5 |}
  /\ 16 = 16.
Proof.
  apply generateAEADAdditionalData_injective.
  - constructor; cbn; lia.
  - constructor; cbn; lia.
  - cbn. lia.
  - cbn. lia.
  - lia.
  - lia.
  - reflexivity.
Defined.

Lemma rsa_failure_is_the_library_error_witness :
  result (verifyKeySignature [1; 2] [0] 4 [[2; 7; 4]]) = Fail (errLibrary 4%nat)
  /\ result (verifyCertificateVerify [1; 2] 4 [0] [[2; 7; 4]])
     = Fail (errLibrary 4%nat).
Proof.
  destruct (@rsa_failure_is_the_library_error Toy.handles Toy.primitives
              [1; 2] [0] 4 [2; 7; 4] [] [2; 7; 4] 7) as [_ Herr].
  - reflexivity.
  - reflexivity.
  - apply (Herr 4%nat).
    + right. left. reflexivity.
    + reflexivity.
Defined.

Lemma toy_ed25519_pair :
  @matching_keys Toy.handles Toy.primitives (@PrivEd25519 Toy.handles 7)
    [0; 7; 16].
Proof.
  intros rnd msg opts sig Hsig. injection Hsig as <-.
  apply bool_decide_eq_true. reflexivity.
Defined.

Lemma toy_rsa_pair :
  @matching_keys Toy.handles Toy.primitives (@PrivRSA Toy.handles 7)
    [2; 7; 4].
Proof.
  split.
  - right. left. reflexivity.
  - intros rnd hashed opts sig Hsig. injection Hsig as <-.
    cbn. unfold Toy.bytes_eqb. rewrite bool_decide_eq_true_2; reflexivity.
Defined.

Lemma key_signature_round_trip_witness :
  exists msg : bytes,
    valueKeyMessage [1] [2] [3] 29 = Some msg
    /\ result (verifyKeySignature msg [7; 1; 2; 3; 0; 29; 1; 3] 4 [[0; 7; 16]])
       = Ret tt.
Proof.
  apply (@key_signature_round_trip Toy.handles Toy.primitives
           [1] [2] [3] 29 (@PrivEd25519 Toy.handles 7) 4 tt
           [7; 1; 2; 3; 0; 29; 1; 3] [0; 7; 16] [] [0; 7; 16]).
  - reflexivity.
  - exact toy_ed25519_pair.
  - reflexivity.
Defined.

Lemma certificate_verify_round_trip_witness :
  result (verifyCertificateVerify [1; 2; 3] 0 (7 :: replicate 32 6) [[2; 7; 4]])
  = Ret tt.
Proof.
  apply (@certificate_verify_round_trip Toy.handles Toy.primitives
           [1; 2; 3] (@PrivRSA Toy.handles 7) 0 tt (7 :: replicate 32 6)
           [2; 7; 4] [] [2; 7; 4]).
  - reflexivity.
  - exact toy_rsa_pair.
  - intros sk Heq. discriminate Heq.
  - reflexivity.
  - reflexivity.
Defined.

Lemma loadCerts_returns_the_parsed_chain_witness :
  parsed_as [[2; 7; 4]; [1; 7; 0]] [[2; 7; 4]; [1; 7; 0]]
  /\ length [[2; 7; 4]; [1; 7; 0]] = length [[2; 7; 4]; [1; 7; 0]].
Proof.
  destruct (@loadCerts_returns_the_parsed_chain Toy.handles Toy.primitives
              [[2; 7; 4]; [1; 7; 0]] [[2; 7; 4]; [1; 7; 0]]
              [CallParseCertificate [2; 7; 4]; CallParseCertificate [1; 7; 0]])
    as (_ & Hp & Hlen & _).
  - reflexivity.
  - split; [exact Hp|exact Hlen].
Defined.

Lemma validators_stop_at_unparseable_witness :
  verifyClientCert [[2; 7; 4]; [9]; [1; 7; 0]] [[2; 7; 4]] 1000
    = ([CallParseCertificate [2; 7; 4]; CallParseCertificate [9]],
       Fail (errLibrary 1%nat))
  /\ verifyServerCert [[2; 7; 4]; [9]; [1; 7; 0]] [[2; 7; 4]] "example.org" 1000
    = ([CallParseCertificate [2; 7; 4]; CallParseCertificate [9]],
       Fail (errLibrary 1%nat)).
Proof.
  apply (@validators_stop_at_unparseable Toy.handles Toy.primitives
           [[2; 7; 4]] [[2; 7; 4]] [9] [[1; 7; 0]] 1%nat
           [[2; 7; 4]] "example.org" 1000).
  - repeat constructor.
  - reflexivity.
Defined.

Lemma validators_accept_only_validated_witness :
  exists (leaf : bytes) (intermediates : list bytes),
    @parsed_as Toy.handles Toy.primitives [[2; 7; 4]; [1; 7; 0]]
      (leaf :: intermediates)
    /\ Toy.verify_chain leaf
         {| Roots := [[2; 7; 4]]; CurrentTime := 1000; DNSName := EmptyString;
            Intermediates := fold_left (fun pool c => pool ++ [c])
                               intermediates [];
            KeyUsages := [ExtKeyUsageClientAuth] |} = inr [[[2; 7; 4]]].
Proof.
  destruct (@validators_accept_only_validated Toy.handles Toy.primitives
              [[2; 7; 4]; [1; 7; 0]] [[2; 7; 4]] "example.org" 1000
              [[[2; 7; 4]]]) as [Hclient _].
  apply Hclient. reflexivity.
Defined.

Lemma verifiers_reject_witness :
  verifyKeySignature [1; 2] [9] 4 [[9]]
    = ([CallParseCertificate [9]], Fail (errLibrary 1%nat))
  /\ verifyKeySignature [1; 2] [8; 1; 2] 4 [[0; 7; 16]]
    = ([CallParseCertificate [0; 7; 16]; CallEd25519Verify 7 [1; 2] [8; 1; 2]],
       Fail errKeySignatureMismatch)
  /\ verifyKeySignature [1; 2] [5] 4 [[1; 7; 0]]
    = ([CallParseCertificate [1; 7; 0]; CallUnmarshal [5]],
       Fail (errLibrary 2%nat)).
Proof.
  split; [|split].
  - destruct (@verifiers_reject Toy.handles Toy.primitives
                [1; 2] [9] 4 [9] []) as (_ & Hparse & _).
    apply (Hparse 1%nat). reflexivity.
  - destruct (@verifiers_reject Toy.handles Toy.primitives
                [1; 2] [8; 1; 2] 4 [0; 7; 16] []) as (_ & _ & Hed & _).
    apply (Hed [0; 7; 16] 7); reflexivity.
  - destruct (@verifiers_reject Toy.handles Toy.primitives
                [1; 2] [5] 4 [1; 7; 0] []) as (_ & _ & _ & Hdec & _).
    apply (Hdec [1; 7; 0] 7 2%nat); reflexivity.
Defined.

(** ** The validators over the documented options *)

(** C9, as stated, fails.  Over a library that reads the options as
    documented, [verifyServerCert] rejects, for its key usage, a leaf that
    is trusted, bears the expected name and allows "client authentication"
    only, although the same validation with [ExtKeyUsageAny], which
    restricts no key usage, accepts it; with an empty expected name it
    accepts a leaf whose only name is another one, which it rejects when
    that expected name is set. *)
Lemma verifyServerCert_restricts_key_usage :
  result (@verifyServerCert Toy.handles DocumentedX509.primitives
            [[2; 7; 4; 2; 1]] [[2; 7; 4; 2; 1]] "a.example" 1000)
    = Fail (errLibrary 6%nat)
  /\ DocumentedX509.verify [2; 7; 4; 2; 1]
       {| Roots := [[2; 7; 4; 2; 1]]; CurrentTime := 1000;
          DNSName := "a.example"; Intermediates := [];
          KeyUsages := [ExtKeyUsageAny] |}
     = inr [[[2; 7; 4; 2; 1]]]
  /\ result (@verifyServerCert Toy.handles DocumentedX509.primitives
               [[2; 7; 4; 1; 2]] [[2; 7; 4; 1; 2]] "" 1000)
     = Ret [[[2; 7; 4; 1; 2]]]
  /\ result (@verifyServerCert Toy.handles DocumentedX509.primitives
               [[2; 7; 4; 1; 2]] [[2; 7; 4; 1; 2]] "a.example" 1000)
     = Fail (errLibrary 5%nat).
Proof. repeat split; vm_compute; reflexivity. Qed.

Lemma documented_x509_law :
  @empty_KeyUsages_mean_ServerAuth Toy.handles DocumentedX509.primitives.
Proof.
  intros leaf opts Hk. cbn. unfold DocumentedX509.verify. cbn.
  rewrite Hk. reflexivity.
Defined.

Lemma validators_effective_options_witness :
  @verifyClientCert Toy.handles DocumentedX509.primitives
    [[2; 7; 4; 3; 1]; [1; 7; 0; 0; 0]] [[2; 7; 4; 3; 1]] 1000
    = ([CallParseCertificate [2; 7; 4; 3; 1];
        CallParseCertificate [1; 7; 0; 0; 0];
        CallNow;
        CallCertificateVerify [2; 7; 4; 3; 1]
          {| Roots := [[2; 7; 4; 3; 1]]; CurrentTime := 1000;
             DNSName := EmptyString; Intermediates := [[1; 7; 0; 0; 0]];
             KeyUsages := [ExtKeyUsageClientAuth] |}],
       Ret [[[2; 7; 4; 3; 1]]])
  /\ @verifyServerCert Toy.handles DocumentedX509.primitives
       [[2; 7; 4; 3; 1]; [1; 7; 0; 0; 0]] [[2; 7; 4; 3; 1]] "a.example" 1000
    = ([CallParseCertificate [2; 7; 4; 3; 1];
        CallParseCertificate [1; 7; 0; 0; 0];
        CallNow;
        CallCertificateVerify [2; 7; 4; 3; 1]
          {| Roots := [[2; 7; 4; 3; 1]]; CurrentTime := 1000;
             DNSName := "a.example"; Intermediates := [[1; 7; 0; 0; 0]];
             KeyUsages := [] |}],
       Ret [[[2; 7; 4; 3; 1]]]).
Proof.
  destruct (@validators_effective_options Toy.handles DocumentedX509.primitives
              [[2; 7; 4; 3; 1]; [1; 7; 0; 0; 0]] [[2; 7; 4; 3; 1]]
              "a.example" 1000
              [CallParseCertificate [2; 7; 4; 3; 1];
               CallParseCertificate [1; 7; 0; 0; 0]]
              documented_x509_law)
    as [Hok _].
  destruct (Hok [[2; 7; 4; 3; 1]; [1; 7; 0; 0; 0]])
    as (leaf & rest & Hcerts & Hc & Hs & _).
  - reflexivity.
  - injection Hcerts as <- <-. split; [exact Hc|exact Hs].
Defined.
